(** * alumni-analytics-etl: the ETL job of [main.py]

  A shallow embedding of [main.py] (module set-up, [load_dataframe_to_bigquery]
  and [run_etl]) together with the fragment of Python's [str] and of pandas
  that the transform stage uses, and the properties of the aggregation,
  of the location split and of the orchestration.

  - Python strings are sequences of Unicode code points ([list N]).
  - A dict is a [gmap]; a DataFrame is a list of rows, a row maps a column
    name to its string, an absent binding being the null cell (NaN/None).
  - Console output, client construction, the Airtable fetch and the BigQuery
    load jobs are effects on an explicit [world], threaded by a small
    state-and-exception monad. *)

From Stdlib Require Import Ascii String.
From stdpp Require Import gmap list fin_maps strings sorting.

Local Open Scope N_scope.

(** A Python [str]: its code points in order. *)
Abbreviation str := (list N).
(** A DataFrame cell of an object column: [None] is the null value. *)
Abbreviation cell := (option (list N)).

(* ===================================================================== *)
(** ** Python strings *)
(* ===================================================================== *)

Module PyStr.

(** The code points of an ASCII literal of the source. *)
Fixpoint py (s : string) : str :=
  match s with
  | EmptyString => []
  | String a s' => Ascii.N_of_ascii a :: py s'
  end.
Arguments py : simpl never.

(** [str.isspace] on one code point: the code points CPython classifies as
    whitespace (bidirectional class WS, B or S, or category Zs). *)
Definition isspace (c : N) : bool :=
  ((9 <=? c) && (c <=? 13))            (* \t \n \v \f \r *)
  || ((28 <=? c) && (c <=? 32))        (* FS GS RS US, space *)
  || (c =? 133) || (c =? 160)          (* NEL, no-break space *)
  || (c =? 5760)                       (* U+1680 *)
  || ((8192 <=? c) && (c <=? 8202))    (* U+2000 .. U+200A *)
  || (c =? 8232) || (c =? 8233)        (* U+2028, U+2029 *)
  || (c =? 8239) || (c =? 8287)        (* U+202F, U+205F *)
  || (c =? 12288).                     (* U+3000 *)

(** [s.lstrip()] *)
Fixpoint lstrip (s : str) : str :=
  match s with
  | [] => []
  | c :: s' => if isspace c then lstrip s' else s
  end.

(** [s.rstrip()] *)
Definition rstrip (s : str) : str := rev (lstrip (rev s)).

(** [s.strip()]: leading, then trailing whitespace is removed. *)
Definition strip (s : str) : str := rstrip (lstrip s).

Definition comma : N := 44.

(** The text before the first [sep] and, when [sep] occurs, the text
    after it. *)
Fixpoint partition (sep : N) (s : str) : str * option str :=
  match s with
  | [] => ([], None)
  | c :: s' =>
      if c =? sep then ([], Some s')
      else let '(pre, post) := partition sep s' in (c :: pre, post)
  end.

(** [s.split(sep, 1)] for a one-character separator: at most one split,
    at the first occurrence. *)
Definition split_n1 (sep : N) (s : str) : list str :=
  match partition sep s with
  | (pre, None) => [pre]
  | (pre, Some post) => [pre; post]
  end.

(** [str(n)] for a non-negative int. *)
Fixpoint digits (u : Decimal.uint) : str :=
  match u with
  | Decimal.Nil => []
  | Decimal.D0 u => 48 :: digits u
  | Decimal.D1 u => 49 :: digits u
  | Decimal.D2 u => 50 :: digits u
  | Decimal.D3 u => 51 :: digits u
  | Decimal.D4 u => 52 :: digits u
  | Decimal.D5 u => 53 :: digits u
  | Decimal.D6 u => 54 :: digits u
  | Decimal.D7 u => 55 :: digits u
  | Decimal.D8 u => 56 :: digits u
  | Decimal.D9 u => 57 :: digits u
  end.
Definition str_of_nat (n : nat) : str := digits (Nat.to_uint n).

(** [sub in s] *)
Fixpoint is_prefix (p s : str) : bool :=
  match p, s with
  | [], _ => true
  | _ :: _, [] => false
  | a :: p', b :: s' => (a =? b) && is_prefix p' s'
  end.
Fixpoint contains (sub s : str) : bool :=
  is_prefix sub s || match s with [] => false | _ :: s' => contains sub s' end.

(** Truthiness of a value that is [None] or a [str]: only a non-empty
    string is true. *)
Definition truthy (v : cell) : bool :=
  match v with
  | Some (_ :: _) => true
  | _ => false
  end.

(** A string made of whitespace only. *)
Definition blank (s : str) : Prop := Forall (λ c, isspace c = true) s.

(** A string with its whitespace characters removed. *)
Definition without_whitespace (s : str) : str := filter (λ c, isspace c = false) s.

End PyStr.

(* ===================================================================== *)
(** ** Orders: the comparison of code points, of strings and of key tuples *)
(* ===================================================================== *)

Module Order.

(** A three-way comparison that decides equality and whose [Lt] is a
    strict order. *)
Class StrictCmp {A : Type} (cmp : A → A → comparison) : Prop := {
  cmp_eq : ∀ x y, cmp x y = Eq ↔ x = y;
  cmp_opp : ∀ x y, cmp y x = CompOpp (cmp x y);
  cmp_trans : ∀ x y z, cmp x y = Lt → cmp y z = Lt → cmp x z = Lt
}.

(** Lexicographic comparison of sequences, as Python compares [str]
    (by code point) and tuples (by component). *)
Fixpoint lex {A : Type} (cmp : A → A → comparison) (a b : list A) : comparison :=
  match a, b with
  | [], [] => Eq
  | [], _ :: _ => Lt
  | _ :: _, [] => Gt
  | x :: a', y :: b' =>
      match cmp x y with
      | Eq => lex cmp a' b'
      | c => c
      end
  end.

Definition str_compare : str → str → comparison := lex N.compare.
Definition key_compare : list str → list str → comparison := lex str_compare.

End Order.

(* ===================================================================== *)
(** ** Exceptions *)
(* ===================================================================== *)

(** The exceptions the job can meet.  [SystemExit] is what [exit()] raises;
    it is not an [Exception].  [NotFound] is [google.api_core.exceptions.NotFound].
    [PandasError] is an exception raised inside pandas (a [ValueError] or an
    [AttributeError], both [Exception]s).  [OtherException] is any other
    subclass of [Exception]; its argument is [str(e)]. *)
Inductive exn : Type :=
| SystemExit
| NotFound (detail : str)
| PandasError
| OtherException (detail : str).

(** How an evaluation ends: with a value, or with a raised exception. *)
Inductive result (A : Type) : Type :=
| Ok (a : A)
| Raise (e : exn).
Arguments Ok {A} a.
Arguments Raise {A} e.

(** [isinstance(e, Exception)] *)
Definition is_Exception (e : exn) : bool :=
  match e with
  | SystemExit => false
  | _ => true
  end.

(** [isinstance(e, google_exceptions.NotFound)] *)
Definition is_NotFound (e : exn) : bool :=
  match e with
  | NotFound _ => true
  | _ => false
  end.

(** [str(e)] *)
Definition exn_str (e : exn) : str :=
  match e with
  | SystemExit => []
  | NotFound d => d
  | PandasError => PyStr.py "Columns must be same length as key"
  | OtherException d => d
  end.

(* ===================================================================== *)
(** ** The pandas operations of the transform stage *)
(* ===================================================================== *)

Module Pandas.
Import PyStr Order.

(** A row of a DataFrame with string (object) columns: the non-null cells
    by column name.  [r !! c = None] is the null cell. *)
Abbreviation row := (gmap (list N) (list N)).
Abbreviation frame := (list (gmap (list N) (list N))).

(** [pd.DataFrame(data)] for a list of dicts whose values are strings or
    null: a key that a dict lacks, or maps to null, is a null cell. *)
Definition DataFrame (data : list (gmap str cell)) : frame :=
  (λ d : gmap str cell, omap id d) <$> data.

(** [df.reindex(columns=columns)]: the listed columns only; one that the
    frame lacks is all null. *)
Definition reindex (columns : list str) (df : frame) : frame :=
  (λ r : row, filter (λ kv : str * str, kv.1 ∈ columns) r) <$> df.

(** [df.dropna(subset=subset)]: the rows with no null cell in [subset]. *)
Definition dropna (subset : list str) (df : frame) : frame :=
  filter (λ r : row, Forall (λ c, is_Some (r !! c)) subset) df.

(** [df[c]] *)
Definition column (c : str) (df : frame) : list cell :=
  (λ r : row, r !! c) <$> df.

(** A row with cell [c] set to [v]. *)
Definition set_cell (c : str) (v : cell) (r : row) : row :=
  match v with
  | Some s => <[c := s]> r
  | None => delete c r
  end.

(** [df[c] = col], [col] aligned with the rows of [df]. *)
Definition setitem (c : str) (col : list cell) (df : frame) : frame :=
  zip_with (set_cell c) col df.

(** [df[c] = s] for a scalar [s] *)
Definition setitem_scalar (c : str) (s : str) (df : frame) : frame :=
  set_cell c (Some s) <$> df.

(** [col.str.strip()] *)
Definition str_strip (col : list cell) : list cell :=
  (λ c : cell, strip <$> c) <$> col.

(** [col.str.split(pat, expand=True, n=1)]: the parts of each string, laid
    out in as many columns as the longest list of parts has entries (none for
    an empty column), shorter rows padded with nulls; a null cell gives a null
    row.  The result is the number of columns and the rows. *)
Definition str_split (pat : N) (col : list cell) : nat * list (list cell) :=
  let parts :=
    (λ c : cell, match c with
                 | Some s => Some <$> split_n1 pat s
                 | None => []
                 end) <$> col in
  let width := max_list (length <$> parts) in
  (width, (λ p, p ++ replicate (width - length p) None) <$> parts).

(** [df[keys] = value] for a list of column names and a DataFrame [value]:
    pandas raises [ValueError("Columns must be same length as key")] unless
    [value] has as many columns as there are keys; else column [i] of
    [value] is assigned to [keys[i]]. *)
Definition setitem_frame (keys : list str) (value : nat * list (list cell))
    (df : frame) : result frame :=
  if decide (value.1 = length keys)
  then Ok (zip_with (λ cells r,
                       foldl (λ r kc, set_cell kc.1 kc.2 r) r (zip keys cells))
                    value.2 df)
  else Raise PandasError.

Section Size.
Context {K : Type} (cmp : K → K → comparison).

(** One more occurrence of [k] in a table of counts kept in increasing key
    order. *)
Fixpoint bump (k : K) (t : list (K * nat)) : list (K * nat) :=
  match t with
  | [] => [(k, 1%nat)]
  | (k', n) :: t' =>
      match cmp k k' with
      | Eq => (k', S n) :: t'
      | Lt => (k, 1%nat) :: (k', n) :: t'
      | Gt => (k', n) :: bump k t'
      end
  end.

(** The group sizes of a sequence of keys: one entry per distinct key, in
    increasing key order ([sort=True]). *)
Definition size_table (keys : list K) : list (K * nat) := foldr bump [] keys.

End Size.

(** The key of a row for [groupby(by)]: its cells in the [by] columns;
    none when one of them is null ([dropna=True]). *)
Definition group_key (by_ : list str) (r : row) : option (list str) :=
  mapM (λ c, r !! c) by_.

(** [df.groupby(by).size()]: rows with a null key cell are left out, the
    groups come in increasing order of their key tuples. *)
Definition groupby_size (by_ : list str) (df : frame) : list (list str * nat) :=
  size_table key_compare (omap (group_key by_) df).

(** The DataFrame that [.size().reset_index(name=...)] makes: the key
    columns, the count column, and one row per group. *)
Record stats : Type := {
  key_columns : list str;
  count_column : str;
  groups : list (list str * nat)
}.

Definition reset_index (name : str) (by_ : list str)
    (sizes : list (list str * nat)) : stats :=
  {| key_columns := by_; count_column := name; groups := sizes |}.

(** [t.rename(columns={old: new})] *)
Definition rename (old new : str) (t : stats) : stats :=
  {| key_columns := (λ c, if decide (c = old) then new else c) <$> key_columns t;
     count_column := if decide (count_column t = old) then new else count_column t;
     groups := groups t |}.

(** [len(t)] *)
Definition len (t : stats) : nat := length (groups t).

(** The sum of the count column. *)
Definition total (t : stats) : nat := sum_list (snd <$> groups t).

End Pandas.

(* ===================================================================== *)
(** ** The process and the services it talks to *)
(* ===================================================================== *)

Module Effects.
Import PyStr Pandas.

(** A record as [airtable.get_all()] returns it; [fields] maps a field
    name to its value, a string or null. *)
Record airtable_record : Type := {
  record_id : str;
  fields : gmap str cell
}.

(** An interaction with Airtable or BigQuery. *)
Inductive call : Type :=
| AirtableInit (base_id table_name api_key : cell)
| BigQueryClient
| AirtableGetAll
| LoadTableFromDataframe (dataframe : stats) (table_id : str) (write_disposition : str)
| JobResult (table_id : str).

(** What the process can see and change. *)
Record world : Type := {
  environ : gmap str str;       (* [os.environ] *)
  stdout : list str;            (* the printed lines, oldest first *)
  calls : list call;            (* the interactions with the services, oldest first *)
  warehouse : gmap str stats    (* the BigQuery tables, by table id *)
}.

(** How the surroundings answer during one run.  An exception of
    [start_load] or of [job_result] leaves the destination table as it
    was; a load job that completes replaces it ([WRITE_TRUNCATE]). *)
Record services : Type := {
  dotenv : gmap str str;                    (* the [.env] file *)
  airtable_init : option exn;               (* [Airtable(...)] raising *)
  client_init : option exn;                 (* [bigquery.Client()] raising *)
  get_all : result (list airtable_record);  (* [airtable.get_all()] *)
  start_load : str → option exn;            (* [load_table_from_dataframe], by table id *)
  job_result : str → option exn             (* [job.result()], by table id *)
}.

(** A computation: it ends with a value or an exception, in a new world. *)
Definition M (A : Type) : Type := world → result A * world.

Definition ret {A : Type} (a : A) : M A := λ w, (Ok a, w).

Definition bind {A B : Type} (m : M A) (k : A → M B) : M B :=
  λ w, match m w with
       | (Ok a, w') => k a w'
       | (Raise e, w') => (Raise e, w')
       end.

Definition raise {A : Type} (e : exn) : M A := λ w, (Raise e, w).

(** [try: body / except ...: handler]. [handler e] is the body of the first
    clause that matches [e], if one does. *)
Definition try_except {A : Type} (body : M A) (handler : exn → option (M A)) : M A :=
  λ w, match body w with
       | (Ok a, w') => (Ok a, w')
       | (Raise e, w') =>
           match handler e with
           | Some h => h w'
           | None => (Raise e, w')
           end
       end.

Definition of_result {A : Type} (r : result A) : M A := λ w, (r, w).

Definition of_failure (f : option exn) : M unit :=
  match f with
  | Some e => raise e
  | None => ret tt
  end.

Declare Scope etl_scope.
Delimit Scope etl_scope with etl.
Notation "x ←! m ;; k" := (bind m (λ x, k))
  (at level 100, m at next level, k at level 200, right associativity) : etl_scope.
Notation "m ;; k" := (bind m (λ _, k))
  (at level 100, k at level 200, right associativity) : etl_scope.

Local Open Scope etl_scope.

(** [print(line)] *)
Definition printed (line : str) (w : world) : world :=
  {| environ := environ w; stdout := stdout w ++ [line];
     calls := calls w; warehouse := warehouse w |}.

Definition print (line : str) : M unit := λ w, (Ok tt, printed line w).

(** An interaction is recorded when it is attempted. *)
Definition called (c : call) (w : world) : world :=
  {| environ := environ w; stdout := stdout w;
     calls := calls w ++ [c]; warehouse := warehouse w |}.

Definition record_call (c : call) : M unit := λ w, (Ok tt, called c w).

(** [exit()] *)
Definition exit {A : Type} : M A := raise SystemExit.

(** [load_dotenv()]: the variables of the [.env] file that the environment
    does not define yet are added to it. *)
Definition load_dotenv (sv : services) : M unit :=
  λ w, (Ok tt, {| environ := environ w ∪ dotenv sv; stdout := stdout w;
                  calls := calls w; warehouse := warehouse w |}).

(** [os.getenv(name)] *)
Definition getenv (name : str) : M cell :=
  λ w, (Ok (environ w !! name), w).

(** [Airtable(base_id, table_name, api_key=api_key)] *)
Definition Airtable (sv : services) (base_id table_name api_key : cell) : M unit :=
  record_call (AirtableInit base_id table_name api_key);;
  of_failure (airtable_init sv).

(** [bigquery.Client()] *)
Definition Client (sv : services) : M unit :=
  record_call BigQueryClient;;
  of_failure (client_init sv).

(** [airtable.get_all()] *)
Definition airtable_get_all (sv : services) : M (list airtable_record) :=
  record_call AirtableGetAll;;
  of_result (get_all sv).

(** [bigquery_client.load_table_from_dataframe(dataframe, table_id, job_config)]:
    the job it returns carries the table and the rows. *)
Definition load_table_from_dataframe (sv : services) (dataframe : stats)
    (table_id : str) (write_disposition : str) : M (str * stats) :=
  record_call (LoadTableFromDataframe dataframe table_id write_disposition);;
  of_failure (start_load sv table_id);;
  ret (table_id, dataframe).

(** [job.result()]: waits for the job; when it completes the destination
    table holds the rows of the job and nothing else. *)
Definition result_ (sv : services) (job : str * stats) : M unit :=
  record_call (JobResult job.1);;
  of_failure (job_result sv job.1);;
  λ w, (Ok tt, {| environ := environ w; stdout := stdout w; calls := calls w;
                  warehouse := <[job.1 := job.2]> (warehouse w) |}).

End Effects.

(* ===================================================================== *)
(** ** main.py *)
(* ===================================================================== *)

Module Etl.
Import PyStr Order Pandas Effects.
Local Open Scope etl_scope.

Definition cross_mark : N := 10060.        (* U+274C *)
Definition check_mark : N := 9989.         (* U+2705 *)
Definition corner : str := [9492; 9472; 9472].   (* U+2514 U+2500 U+2500 *)

(** A config value inside an f-string. *)
Definition fmt (v : cell) : str :=
  match v with
  | Some s => s
  | None => py "None"
  end.

(** *** Set-up (module level) *)

(** The module's global configuration. *)
Record globals : Type := {
  AIRTABLE_BASE_ID : cell;
  AIRTABLE_TABLE_NAME : cell;
  AIRTABLE_API_KEY : cell;
  GCP_PROJECT_ID : cell;
  BIGQUERY_DATASET_ID : cell
}.

Definition config_names : list str :=
  [py "AIRTABLE_BASE_ID"; py "AIRTABLE_TABLE_NAME"; py "AIRTABLE_API_KEY";
   py "GCP_PROJECT_ID"; py "BIGQUERY_DATASET_ID"].

(** The list that [all(...)] tests. *)
Definition config_values (g : globals) : list cell :=
  [AIRTABLE_BASE_ID g; AIRTABLE_TABLE_NAME g; AIRTABLE_API_KEY g;
   GCP_PROJECT_ID g; BIGQUERY_DATASET_ID g].

Definition missing_line1 : str :=
  cross_mark :: py " ERROR: One or more environment variables are missing from your .env file.".
Definition missing_line2 : str :=
  py "Please check all 5 variables (AIRTABLE_BASE_ID, AIRTABLE_TABLE_NAME, AIRTABLE_API_KEY, GCP_PROJECT_ID, BIGQUERY_DATASET_ID).".

Definition setup (sv : services) : M globals :=
  print (py "Loading environment variables...");;
  load_dotenv sv;;
  base_id ←! getenv (py "AIRTABLE_BASE_ID");;
  table_name ←! getenv (py "AIRTABLE_TABLE_NAME");;
  api_key ←! getenv (py "AIRTABLE_API_KEY");;
  project_id ←! getenv (py "GCP_PROJECT_ID");;
  dataset_id ←! getenv (py "BIGQUERY_DATASET_ID");;
  let g := {| AIRTABLE_BASE_ID := base_id; AIRTABLE_TABLE_NAME := table_name;
              AIRTABLE_API_KEY := api_key; GCP_PROJECT_ID := project_id;
              BIGQUERY_DATASET_ID := dataset_id |} in
  (if negb (forallb truthy (config_values g))
   then print missing_line1;; print missing_line2;; exit
   else ret tt);;
  try_except
    (print (py "Connecting to Airtable...");;
     Airtable sv base_id table_name api_key;;
     print (py "Connecting to BigQuery...");;
     Client sv;;
     print (py "Connections initialized."))
    (λ e, if is_Exception e
          then Some (print (cross_mark :: py " ERROR: Failed to initialize clients. " ++ exn_str e);;
                     exit)
          else None);;
  ret g.

(** *** Load *)

Definition WRITE_TRUNCATE : str := py "WRITE_TRUNCATE".

Definition table_id_of (g : globals) (table_name : str) : str :=
  fmt (GCP_PROJECT_ID g) ++ py "." ++ fmt (BIGQUERY_DATASET_ID g) ++ py "." ++ table_name.

Definition load_dataframe_to_bigquery (sv : services) (g : globals)
    (dataframe : stats) (table_name : str) : M unit :=
  let table_id := table_id_of g table_name in
  let job_config := WRITE_TRUNCATE in
  try_except
    (print (py "  Loading " ++ str_of_nat (len dataframe) ++ py " rows into "
            ++ table_id ++ py "...");;
     job ←! load_table_from_dataframe sv dataframe table_id job_config;;
     result_ sv job;;
     print (py "  " ++ check_mark :: py " SUCCESS: Load complete for " ++ table_id))
    (λ e, if is_NotFound e
          then Some (print (py "  " ++ cross_mark :: py " ERROR: " ++ table_id
                            ++ py " failed to load. The dataset '"
                            ++ fmt (BIGQUERY_DATASET_ID g) ++ py "' might not exist.");;
                     print (py "  " ++ corner ++ py " Details: " ++ exn_str e))
          else if is_Exception e
          then Some (print (py "  " ++ cross_mark :: py " ERROR: " ++ table_id
                            ++ py " failed to load.");;
                     print (py "  " ++ corner ++ py " Details: " ++ exn_str e))
          else None).

(** *** Transform *)

Definition safe_columns : list str :=
  [py "Current Company"; py "Current Title"; py "Location"; py "Major";
   py "Graduation Year"].

(** [df_raw = pd.DataFrame([r['fields'] for r in all_records])] *)
Definition df_raw_of (all_records : list airtable_record) : frame :=
  DataFrame (fields <$> all_records).

(** T1: company *)
Definition stats_company_of (df_safe : frame) : stats :=
  let df_company := dropna [py "Current Company"] df_safe in
  let stats_company :=
    reset_index (py "alumni_count") [py "Current Company"]
      (groupby_size [py "Current Company"] df_company) in
  rename (py "Current Company") (py "company_name") stats_company.

(** T2: job title *)
Definition stats_jobs_of (df_safe : frame) : stats :=
  let df_jobs := dropna [py "Current Title"] df_safe in
  let stats_jobs :=
    reset_index (py "job_count") [py "Current Title"]
      (groupby_size [py "Current Title"] df_jobs) in
  rename (py "Current Title") (py "job_title") stats_jobs.

(** T3: major *)
Definition stats_major_of (df_safe : frame) : stats :=
  let df_major := dropna [py "Major"] df_safe in
  let stats_major :=
    reset_index (py "major_count") [py "Major"]
      (groupby_size [py "Major"] df_major) in
  rename (py "Major") (py "major") stats_major.

(** T4, up to the grouping: [df_location] with its [city], [state_raw],
    [state] and [country] columns.  Line 140 raises unless the split gives
    two columns, that is unless some location has a comma: with fewer
    columns the assignment is refused ([ValueError]), and on a column
    without any string the [.str] accessor is ([AttributeError]); the two are
    the one [PandasError] here.  Nothing in [run_etl] catches it. *)
Definition df_location_of (df_safe : frame) : result frame :=
  let df_location := dropna [py "Location"] df_safe in
  match setitem_frame [py "city"; py "state_raw"]
          (str_split comma (column (py "Location") df_location)) df_location with
  | Raise e => Raise e
  | Ok df_location =>
      let df_location :=
        setitem (py "city") (str_strip (column (py "city") df_location)) df_location in
      let df_location :=
        setitem (py "state") (str_strip (column (py "state_raw") df_location)) df_location in
      let df_location := setitem_scalar (py "country") (py "United States") df_location in
      Ok df_location
  end.

(** T4: location *)
Definition stats_location_of (df_safe : frame) : result stats :=
  match df_location_of df_safe with
  | Raise e => Raise e
  | Ok df_location =>
      Ok (reset_index (py "alumni_count") [py "country"; py "state"; py "city"]
            (groupby_size [py "country"; py "state"; py "city"] df_location))
  end.

(** *** The pipeline *)

Definition run_etl (sv : services) (g : globals) : M unit :=
  (* EXTRACT *)
  print (10 :: py "--- EXTRACT ---");;
  print (py "Starting: Fetching all records from Airtable...");;
  extracted ←!
    try_except
      (all_records ←! airtable_get_all sv;;
       let df_raw := df_raw_of all_records in
       print (py "Successfully extracted " ++ str_of_nat (length df_raw)
              ++ py " raw records.");;
       ret (Some df_raw))
      (λ e, if is_Exception e
            then Some (print (cross_mark :: py " ERROR: Failed to extract from Airtable. Check your Token, Base ID, and Table Name.");;
                       print (py "   " ++ corner ++ py " Details: " ++ exn_str e);;
                       ret None)
            else None);;
  match extracted with
  | None => ret tt    (* [return]: stop if extraction fails *)
  | Some df_raw =>
      (* TRANSFORM *)
      print (10 :: py "--- TRANSFORM ---");;
      print (py "Starting: Anonymizing and aggregating data...");;
      let df_safe := reindex safe_columns df_raw in
      let stats_company := stats_company_of df_safe in
      print (py "  Processed " ++ str_of_nat (len stats_company)
             ++ py " Company aggregates.");;
      let stats_jobs := stats_jobs_of df_safe in
      print (py "  Processed " ++ str_of_nat (len stats_jobs)
             ++ py " Job Title aggregates.");;
      let stats_major := stats_major_of df_safe in
      print (py "  Processed " ++ str_of_nat (len stats_major)
             ++ py " Major aggregates.");;
      stats_location ←! of_result (stats_location_of df_safe);;
      print (py "  Processed " ++ str_of_nat (len stats_location)
             ++ py " Location aggregates.");;
      print (py "Transformation complete.");;
      (* LOAD *)
      print (10 :: py "--- LOAD ---");;
      print (py "Starting: Loading all aggregated tables to BigQuery...");;
      load_dataframe_to_bigquery sv g stats_company (py "stats_company");;
      load_dataframe_to_bigquery sv g stats_jobs (py "stats_job_title");;
      load_dataframe_to_bigquery sv g stats_major (py "stats_major");;
      load_dataframe_to_bigquery sv g stats_location (py "stats_location");;
      print (10 :: py "ETL pipeline finished successfully!")
  end.

(** The script: the module body, then [run_etl()]. *)
Definition main (sv : services) : M unit :=
  g ←! setup sv;;
  run_etl sv g.

(** *** The aggregates as functions of the raw record set *)

Definition df_safe_of (R : list (gmap str cell)) : frame :=
  reindex safe_columns (DataFrame R).

Definition stats_company (R : list (gmap str cell)) : stats := stats_company_of (df_safe_of R).
Definition stats_job_title (R : list (gmap str cell)) : stats := stats_jobs_of (df_safe_of R).
Definition stats_major (R : list (gmap str cell)) : stats := stats_major_of (df_safe_of R).
Definition stats_location (R : list (gmap str cell)) : result stats :=
  stats_location_of (df_safe_of R).

(** The value of a field of a raw record; null when the record lacks it. *)
Definition field (name : str) (r : gmap str cell) : cell :=
  match r !! name with
  | Some v => v
  | None => None
  end.

(** The number of records with a non-null value in a field. *)
Definition count_non_null (name : str) (R : list (gmap str cell)) : nat :=
  length (filter (λ r, is_Some (field name r)) R).

End Etl.

(* ===================================================================== *)
(** ** Vocabulary of the statements *)
(* ===================================================================== *)

Module Spec.
Import PyStr Order Pandas Effects Etl.

(** The count a table of group sizes gives for a key; 0 when the key has
    no row. *)
Definition count_key {K : Type} `{EqDecision K} (k : K) (t : list (K * nat)) : nat :=
  sum_list (snd <$> filter (λ g : K * nat, g.1 = k) t).

(** A frequency table: no key in two rows, no count below 1. *)
Definition well_formed {K : Type} (t : list (K * nat)) : Prop :=
  NoDup (fst <$> t) ∧ Forall (λ g : K * nat, (1 ≤ g.2)%nat) t.

(** A raw record set: the [fields] dicts of the fetched records. *)
Abbreviation records := (list (gmap (list N) (option (list N)))).

(** The (country, state, city) key that lines 140-145 give a record: that
    of a [Location] with a comma; a record with a null [Location], or with
    one that has no comma (null state), has none. *)
Definition location_key (r : gmap str cell) : option (list str) :=
  match field (py "Location") r with
  | Some s =>
      match partition comma s with
      | (pre, Some post) => Some [py "United States"; strip post; strip pre]
      | (_, None) => None
      end
  | None => None
  end.

(** Lines 140-145 on one row of [df_location], when the split gives two
    columns. *)
Definition location_row (r : row) : row :=
  let cells :=
    match r !! py "Location" with
    | Some s => let '(pre, post) := partition comma s in [Some pre; post]
    | None => [None; None]
    end in
  let r := foldl (λ r kc, set_cell kc.1 kc.2 r) r (zip [py "city"; py "state_raw"] cells) in
  let r := set_cell (py "city") (strip <$> r !! py "city") r in
  let r := set_cell (py "state") (strip <$> r !! py "state_raw") r in
  set_cell (py "country") (Some (py "United States")) r.

(** A [Location] that parses as city and state: it has a comma. *)
Definition parseable (r : gmap str cell) : Prop := is_Some (location_key r).

(** The number of records with a non-null, parseable [Location]. *)
Definition count_parseable (R : records) : nat := length (filter parseable R).

(** The number of columns that the split of line 140 gives. *)
Definition width (R : records) : nat :=
  (str_split comma (column (py "Location") (dropna [py "Location"] (df_safe_of R)))).1.

Definition location_columns : list str := [py "country"; py "state"; py "city"].

(** The four aggregates. *)
Inductive dimension : Type := Company | JobTitle | Major | Location.

Definition source_field (d : dimension) : str :=
  match d with
  | Company => py "Current Company"
  | JobTitle => py "Current Title"
  | Major => py "Major"
  | Location => py "Location"
  end.

(** The grouping key of a record in a dimension; it is read from the
    source field of that dimension alone. *)
Definition key_of (d : dimension) (r : gmap str cell) : option (list str) :=
  match d with
  | Location => location_key r
  | _ => match field (source_field d) r with
         | Some s => Some [s]
         | None => None
         end
  end.

Definition table_of (d : dimension) (R : records) : result stats :=
  match d with
  | Company => Ok (stats_company R)
  | JobTitle => Ok (stats_job_title R)
  | Major => Ok (stats_major R)
  | Location => stats_location R
  end.

(** The number of records with key [k] in dimension [d]. *)
Definition occurrences (d : dimension) (k : list str) (R : records) : nat :=
  length (filter (λ r, key_of d r = Some k) R).

(** The exception that ends the load job of a table, if one does. *)
Definition load_failure (sv : services) (table_id : str) : option exn :=
  match start_load sv table_id with
  | Some e => Some e
  | None => job_result sv table_id
  end.

(** What one call of [load_dataframe_to_bigquery] leaves behind when the
    failures of the load job are [Exception]s: the interactions, the
    destination table, and the lines printed. *)
Definition load_calls (sv : services) (g : globals) (job : stats * str) : list call :=
  let table_id := table_id_of g job.2 in
  LoadTableFromDataframe job.1 table_id WRITE_TRUNCATE ::
  match start_load sv table_id with
  | None => [JobResult table_id]
  | Some _ => []
  end.

Definition load_effect (sv : services) (g : globals) (wh : gmap str stats)
    (job : stats * str) : gmap str stats :=
  let table_id := table_id_of g job.2 in
  match load_failure sv table_id with
  | None => <[table_id := job.1]> wh
  | Some _ => wh
  end.

Definition load_lines (sv : services) (g : globals) (job : stats * str) : list str :=
  let table_id := table_id_of g job.2 in
  (py "  Loading " ++ str_of_nat (len job.1) ++ py " rows into " ++ table_id ++ py "...") ::
  match load_failure sv table_id with
  | None => [py "  " ++ check_mark :: py " SUCCESS: Load complete for " ++ table_id]
  | Some e =>
      [py "  " ++ cross_mark :: py " ERROR: " ++ table_id ++ py " failed to load."
       ++ (if is_NotFound e
           then py " The dataset '" ++ fmt (BIGQUERY_DATASET_ID g) ++ py "' might not exist."
           else []);
       py "  " ++ corner ++ py " Details: " ++ exn_str e]
  end.

(** The four load operations of a run, in order. *)
Definition load_jobs (R : records) (stats_location : stats) : list (stats * str) :=
  [(stats_company R, py "stats_company"); (stats_job_title R, py "stats_job_title");
   (stats_major R, py "stats_major"); (stats_location, py "stats_location")].

Definition finished_line : str := 10 :: py "ETL pipeline finished successfully!".

(** What a run prints from its start up to the first load, when the fetch
    gives the records [R] and the location step the table [stats_location]. *)
Definition progress_lines (R : records) (stats_location : stats) : list str :=
  [10 :: py "--- EXTRACT ---";
   py "Starting: Fetching all records from Airtable...";
   py "Successfully extracted " ++ str_of_nat (length R) ++ py " raw records.";
   10 :: py "--- TRANSFORM ---";
   py "Starting: Anonymizing and aggregating data...";
   py "  Processed " ++ str_of_nat (len (stats_company R)) ++ py " Company aggregates.";
   py "  Processed " ++ str_of_nat (len (stats_job_title R)) ++ py " Job Title aggregates.";
   py "  Processed " ++ str_of_nat (len (stats_major R)) ++ py " Major aggregates.";
   py "  Processed " ++ str_of_nat (len stats_location) ++ py " Location aggregates.";
   py "Transformation complete.";
   10 :: py "--- LOAD ---";
   py "Starting: Loading all aggregated tables to BigQuery..."].

(** The world one call of [load_dataframe_to_bigquery] leaves. *)
Definition after_load (sv : services) (g : globals) (w : world) (job : stats * str) : world :=
  (load_dataframe_to_bigquery sv g job.1 job.2 w).2.

Arguments after_load : simpl never.

(** The world after the set-up has found a configuration value missing. *)
Definition after_missing_config (sv : services) (w : world) : world :=
  {| environ := environ w ∪ dotenv sv;
     stdout := stdout w ++ [py "Loading environment variables..."; missing_line1; missing_line2];
     calls := calls w;
     warehouse := warehouse w |}.

(** The surroundings with a variable removed from the environment and from
    the [.env] file. *)
Definition unset_dotenv (name : str) (sv : services) : services :=
  {| dotenv := delete name (dotenv sv); airtable_init := airtable_init sv;
     client_init := client_init sv; get_all := get_all sv;
     start_load := start_load sv; job_result := job_result sv |}.

Definition unset_environ (name : str) (w : world) : world :=
  {| environ := delete name (environ w); stdout := stdout w; calls := calls w;
     warehouse := warehouse w |}.

(** What [run_etl] prints when the fetch raises [e]. *)
Definition extraction_lines (e : exn) : list str :=
  [10 :: py "--- EXTRACT ---"; py "Starting: Fetching all records from Airtable..."]
  ++ if is_Exception e
     then [cross_mark :: py " ERROR: Failed to extract from Airtable. Check your Token, Base ID, and Table Name.";
           py "   " ++ corner ++ py " Details: " ++ exn_str e]
     else [].

(** [s] is [city ++ ", " ++ state] up to whitespace next to the two parts. *)
Definition same_up_to_whitespace (s city state : str) : Prop :=
  ∃ w1 w2 w3 w4, blank w1 ∧ blank w2 ∧ blank w3 ∧ blank w4 ∧
    s = w1 ++ city ++ w2 ++ comma :: w3 ++ state ++ w4.

(** The row that lines 140-145 make of record [r], which follows the
    records [R1] and precedes [R2], has the given city and state cells. *)
Definition splits_to (R1 : records) (r : gmap str cell) (R2 : records)
    (city state : cell) : Prop :=
  ∃ df row,
    df_location_of (df_safe_of (R1 ++ r :: R2)) = Ok df ∧
    df !! count_non_null (py "Location") R1 = Some row ∧
    row !! py "city" = city ∧ row !! py "state" = state.

(** The split law for a location string: the split is at the first comma
    only; the string is city, comma, state up to whitespace next to the
    parts, so that it and city, comma, space, state are the same once
    whitespace is removed; joining city and state with a comma and a space
    gives a string that splits to the same city and state; and these are the
    cells the job computes for a record with that location. *)
Definition round_trip (s : str) : Prop :=
  ∃ pre post,
    split_n1 comma s = [pre; post] ∧ s = pre ++ comma :: post ∧ (comma ∉ pre) ∧
    (let city := strip pre in
     let state := strip post in
     same_up_to_whitespace s city state ∧
     without_whitespace (city ++ py ", " ++ state) = without_whitespace s ∧
     (∃ pre' post', split_n1 comma (city ++ py ", " ++ state) = [pre'; post'] ∧
                    strip pre' = city ∧ strip post' = state) ∧
     ∀ R1 r R2, field (py "Location") r = Some s →
                splits_to R1 r R2 (Some city) (Some state)).

(** A row of a location table with the given city (the third key column). *)
Definition has_city_row (t : stats) (city : str) : Prop :=
  ∃ k n, (k, n) ∈ groups t ∧ k !! 2%nat = Some city.

(** Every row of a location table has the given country (the first key
    column). *)
Definition all_in_country (t : stats) (country : str) : Prop :=
  Forall (λ g : list str * nat, g.1 !! 0%nat = Some country) (groups t).

End Spec.

(* ===================================================================== *)
(** ** Sample inputs *)
(* ===================================================================== *)

Module Samples.
Import PyStr Pandas Effects Etl Spec.

Definition austin : gmap str cell :=
  {[ py "Current Company" := Some (py "Acme"); py "Location" := Some (py "Austin, TX") ]}.
Definition dallas : gmap str cell :=
  {[ py "Current Company" := Some (py "Acme"); py "Location" := Some (py "Dallas, TX") ]}.
(** A record with a null company. *)
Definition anonymous : gmap str cell :=
  {[ py "Current Company" := None; py "Location" := Some (py "Austin, TX") ]}.
(** A record whose location has no comma. *)
Definition remote : gmap str cell :=
  {[ py "Current Company" := Some (py "Initech"); py "Location" := Some (py "Remote") ]}.
(** A record with a company and no title. *)
Definition untitled : gmap str cell :=
  {[ py "Current Company" := Some (py "Acme"); py "Major" := Some (py "Physics") ]}.

(** The record set of the scenario of the specification. *)
Definition scenario : records := [austin; dallas; anonymous].

(** Its location table. *)
Definition scenario_location : stats :=
  {| key_columns := [py "country"; py "state"; py "city"];
     count_column := py "alumni_count";
     groups := [([py "United States"; py "TX"; py "Austin"], 2%nat);
                ([py "United States"; py "TX"; py "Dallas"], 1%nat)] |}.

Definition as_fetched (r : gmap str cell) : airtable_record :=
  {| record_id := py "rec"; fields := r |}.

Definition empty_world : world :=
  {| environ := ∅; stdout := []; calls := []; warehouse := ∅ |}.

(** An environment that defines the five variables. *)
Definition full_environ : gmap str str :=
  {[ py "AIRTABLE_BASE_ID" := py "app1"; py "AIRTABLE_TABLE_NAME" := py "Alumni";
     py "AIRTABLE_API_KEY" := py "key1"; py "GCP_PROJECT_ID" := py "proj";
     py "BIGQUERY_DATASET_ID" := py "alumni" ]}.

Definition sample_globals : globals :=
  {| AIRTABLE_BASE_ID := Some (py "app1"); AIRTABLE_TABLE_NAME := Some (py "Alumni");
     AIRTABLE_API_KEY := Some (py "key1"); GCP_PROJECT_ID := Some (py "proj");
     BIGQUERY_DATASET_ID := Some (py "alumni") |}.

(** Services that answer every call. *)
Definition healthy (R : records) : services :=
  {| dotenv := ∅; airtable_init := None; client_init := None;
     get_all := Ok (as_fetched <$> R);
     start_load := λ _, None; job_result := λ _, None |}.

(** The dataset is missing for [stats_major]; the other loads succeed. *)
Definition major_not_found (R : records) : services :=
  {| dotenv := ∅; airtable_init := None; client_init := None;
     get_all := Ok (as_fetched <$> R);
     start_load := λ _, None;
     job_result := λ table_id,
       if decide (table_id = py "proj.alumni.stats_major")
       then Some (NotFound (py "404 Not found: Dataset proj:alumni"))
       else None |}.

(** The fetch fails. *)
Definition unreachable : services :=
  {| dotenv := ∅; airtable_init := None; client_init := None;
     get_all := Raise (OtherException (py "401 Unauthorized"));
     start_load := λ _, None; job_result := λ _, None |}.

End Samples.

(* ===================================================================== *)
(** ** Vocabulary of the further statements *)
(* ===================================================================== *)

Module Coverage.
Import PyStr Order Pandas Effects Etl Spec.
Local Open Scope etl_scope.

(** The fields that the aggregates read. *)
Definition source_fields : list str :=
  [py "Current Company"; py "Current Title"; py "Location"; py "Major"].

(** The name and count columns of each output table. *)
Definition output_columns (d : dimension) : list str * str :=
  match d with
  | Company => ([py "company_name"], py "alumni_count")
  | JobTitle => ([py "job_title"], py "job_count")
  | Major => ([py "major"], py "major_count")
  | Location => ([py "country"; py "state"; py "city"], py "alumni_count")
  end.

(** What a run prints before the location step, when the fetch gives the
    records [R]. *)
Definition lines_before_location (R : records) : list str :=
  [10 :: py "--- EXTRACT ---";
   py "Starting: Fetching all records from Airtable...";
   py "Successfully extracted " ++ str_of_nat (length R) ++ py " raw records.";
   10 :: py "--- TRANSFORM ---";
   py "Starting: Anonymizing and aggregating data...";
   py "  Processed " ++ str_of_nat (len (stats_company R)) ++ py " Company aggregates.";
   py "  Processed " ++ str_of_nat (len (stats_job_title R)) ++ py " Job Title aggregates.";
   py "  Processed " ++ str_of_nat (len (stats_major R)) ++ py " Major aggregates."].

(** The configuration that the set-up reads from an environment. *)
Definition config_of (env : gmap str str) : globals :=
  {| AIRTABLE_BASE_ID := env !! py "AIRTABLE_BASE_ID";
     AIRTABLE_TABLE_NAME := env !! py "AIRTABLE_TABLE_NAME";
     AIRTABLE_API_KEY := env !! py "AIRTABLE_API_KEY";
     GCP_PROJECT_ID := env !! py "GCP_PROJECT_ID";
     BIGQUERY_DATASET_ID := env !! py "BIGQUERY_DATASET_ID" |}.

(** All five configuration values are truthy. *)
Definition configured (env : gmap str str) : Prop :=
  forallb truthy (config_values (config_of env)) = true.

(** The construction of the Airtable client, as an interaction. *)
Definition airtable_client (env : gmap str str) : call :=
  AirtableInit (env !! py "AIRTABLE_BASE_ID") (env !! py "AIRTABLE_TABLE_NAME")
    (env !! py "AIRTABLE_API_KEY").

(** The exception that ends the construction of the clients, if one does:
    that of the Airtable client, else that of the BigQuery client. *)
Definition init_failure (sv : services) : option exn :=
  match airtable_init sv with
  | Some e => Some e
  | None => client_init sv
  end.

(** The interactions of the set-up: the BigQuery client is constructed only
    when the Airtable client was. *)
Definition init_calls (sv : services) (env : gmap str str) : list call :=
  airtable_client env ::
  match airtable_init sv with
  | None => [BigQueryClient]
  | Some _ => []
  end.

(** The lines of the set-up, up to the failure of a client or to its end. *)
Definition init_lines (sv : services) : list str :=
  [py "Loading environment variables..."; py "Connecting to Airtable..."]
  ++ match airtable_init sv with
     | None => [py "Connecting to BigQuery..."]
     | Some _ => []
     end
  ++ match init_failure sv with
     | None => [py "Connections initialized."]
     | Some e => [cross_mark :: py " ERROR: Failed to initialize clients. " ++ exn_str e]
     end.

(** The world that the set-up leaves once both clients were attempted. *)
Definition after_init (sv : services) (w : world) : world :=
  {| environ := environ w ∪ dotenv sv;
     stdout := stdout w ++ init_lines sv;
     calls := calls w ++ init_calls sv (environ w ∪ dotenv sv);
     warehouse := warehouse w |}.

(** The destination tables of a list of load operations. *)
Definition table_ids (g : globals) (jobs : list (stats * str)) : list str :=
  (λ job : stats * str, table_id_of g job.2) <$> jobs.

(** A world whose environment defines the five variables. *)
Definition configured_world : world :=
  {| environ := Samples.full_environ; stdout := []; calls := [];
     warehouse := {[ py "proj.alumni.stats_major" := Samples.scenario_location ]} |}.

(** Services whose Airtable client cannot be constructed. *)
Definition airtable_down : services :=
  {| dotenv := ∅; airtable_init := Some (OtherException (py "invalid base id"));
     client_init := None; get_all := Ok [];
     start_load := λ _, None; job_result := λ _, None |}.

End Coverage.

(* ===================================================================== *)
(** * Properties *)
(* ===================================================================== *)

(** ** Orders *)

Module OrderFacts.
Import Order.

#[export] Instance N_compare_strict : StrictCmp N.compare.
Proof.
  split.
  - apply N.compare_eq_iff.
  - intros x y. apply N.compare_antisym.
  - intros x y z. rewrite !N.compare_lt_iff. apply N.lt_trans.
Qed.

Section Lex.
Context {A : Type} (cmp : A → A → comparison) `{!StrictCmp cmp}.

Lemma cmp_refl (x : A) : cmp x x = Eq.
Proof. by apply cmp_eq. Qed.

Lemma lex_eq (a b : list A) : lex cmp a b = Eq ↔ a = b.
Proof.
  revert b. induction a as [|x a IH]; intros [|y b]; simpl; try (split; congruence).
  destruct (cmp x y) eqn:E.
  - apply cmp_eq in E as ->. rewrite IH. split; congruence.
  - split; [done|]. intros [= -> _]. by rewrite cmp_refl in E.
  - split; [done|]. intros [= -> _]. by rewrite cmp_refl in E.
Qed.

Lemma lex_opp (a b : list A) : lex cmp b a = CompOpp (lex cmp a b).
Proof.
  revert b. induction a as [|x a IH]; intros [|y b]; simpl; try done.
  rewrite (cmp_opp x y). destruct (cmp x y); simpl; auto.
Qed.

Lemma lex_trans (a b c : list A) :
  lex cmp a b = Lt → lex cmp b c = Lt → lex cmp a c = Lt.
Proof.
  revert b c. induction a as [|x a IH]; intros [|y b] [|z c]; simpl; try done.
  destruct (cmp x y) eqn:Exy; try done.
  - apply cmp_eq in Exy as ->. destruct (cmp y z); try done. apply IH.
  - intros _. destruct (cmp y z) eqn:Eyz; try done.
    + apply cmp_eq in Eyz as <-. by rewrite Exy.
    + by rewrite (cmp_trans x y z Exy Eyz).
Qed.

#[export] Instance lex_strict : StrictCmp (lex cmp).
Proof. split; [apply lex_eq | apply lex_opp | apply lex_trans]. Qed.

End Lex.

#[export] Instance str_compare_strict : StrictCmp str_compare.
Proof. unfold str_compare. apply _. Qed.

#[export] Instance key_compare_strict : StrictCmp key_compare.
Proof. unfold key_compare. apply _. Qed.

End OrderFacts.

(** ** Group sizes *)

Module SizeFacts.
Import Order OrderFacts Pandas Spec.

Section Size.
Context {K : Type} (cmp : K → K → comparison).

Lemma sum_bump (k : K) (t : list (K * nat)) :
  sum_list (snd <$> bump cmp k t) = S (sum_list (snd <$> t)).
Proof.
  induction t as [|[k' n] t IH]; csimpl; [done|].
  destruct (cmp k k'); csimpl; [done | done |]. rewrite IH. lia.
Qed.

Lemma sum_size_table (keys : list K) :
  sum_list (snd <$> size_table cmp keys) = length keys.
Proof.
  induction keys as [|k keys IH]; csimpl; [done|].
  by rewrite sum_bump, IH.
Qed.

Lemma bump_positive (k : K) (t : list (K * nat)) :
  Forall (λ g : K * nat, (1 ≤ g.2)%nat) t →
  Forall (λ g : K * nat, (1 ≤ g.2)%nat) (bump cmp k t).
Proof.
  induction 1 as [|[k' n] t Hn Ht IH]; simpl.
  - by repeat constructor.
  - destruct (cmp k k'); repeat constructor; simpl in *; auto with lia.
Qed.

Lemma size_table_positive (keys : list K) :
  Forall (λ g : K * nat, (1 ≤ g.2)%nat) (size_table cmp keys).
Proof.
  induction keys as [|k keys IH]; simpl; [constructor|]. by apply bump_positive.
Qed.

Context `{!StrictCmp cmp}.

Lemma bump_keys (k x : K) (t : list (K * nat)) :
  x ∈ fst <$> bump cmp k t → x = k ∨ x ∈ fst <$> t.
Proof.
  induction t as [|[k' n] t IH]; simpl.
  - rewrite list_elem_of_singleton. auto.
  - destruct (cmp k k'); simpl; rewrite ?elem_of_cons; simpl; [tauto | tauto |].
    intros [->|Hx]; [tauto|]. destruct (IH Hx); tauto.
Qed.

Lemma bump_increasing (k : K) (t : list (K * nat)) :
  StronglySorted (λ x y, cmp x y = Lt) (fst <$> t) →
  StronglySorted (λ x y, cmp x y = Lt) (fst <$> bump cmp k t).
Proof.
  induction t as [|[k' n] t IH]; simpl; intros Hs.
  - repeat constructor.
  - apply StronglySorted_inv in Hs as [Hs Hk'].
    destruct (cmp k k') eqn:E; simpl.
    + by constructor.
    + constructor; [by constructor|]. constructor; [done|].
      eapply Forall_impl; [exact Hk'|]. intros y Hy. simpl in Hy.
      by apply (cmp_trans k k' y).
    + constructor; [by apply IH|].
      apply Forall_forall. intros x Hx. apply bump_keys in Hx as [->|Hx].
      * rewrite (cmp_opp k k'), E. done.
      * by eapply Forall_forall in Hk'.
Qed.

(** The groups come in strictly increasing key order. *)
Lemma size_table_increasing (keys : list K) :
  StronglySorted (λ x y, cmp x y = Lt) (fst <$> size_table cmp keys).
Proof.
  induction keys as [|k keys IH]; simpl; [constructor|]. by apply bump_increasing.
Qed.

Lemma increasing_NoDup (l : list K) :
  StronglySorted (λ x y, cmp x y = Lt) l → NoDup l.
Proof.
  induction 1 as [|x l Hs IH Hx]; constructor; [|done].
  intros Hin. eapply Forall_forall in Hx; [|exact Hin].
  by rewrite (cmp_refl cmp) in Hx.
Qed.

Lemma size_table_well_formed (keys : list K) :
  well_formed (size_table cmp keys).
Proof.
  split.
  - apply increasing_NoDup, size_table_increasing.
  - apply size_table_positive.
Qed.

Context `{!EqDecision K}.

Lemma count_key_cons (k : K) (g : K * nat) (t : list (K * nat)) :
  count_key k (g :: t) = ((if decide (g.1 = k) then g.2 else 0) + count_key k t)%nat.
Proof.
  unfold count_key. rewrite filter_cons. by destruct (decide (g.1 = k)).
Qed.

Lemma count_key_bump (k k0 : K) (t : list (K * nat)) :
  count_key k (bump cmp k0 t)
  = ((if decide (k0 = k) then 1 else 0) + count_key k t)%nat.
Proof.
  induction t as [|[k' n] t IH]; simpl.
  - by rewrite count_key_cons.
  - destruct (cmp k0 k') eqn:E.
    + apply cmp_eq in E as ->. rewrite !count_key_cons. simpl.
      destruct (decide (k' = k)); lia.
    + by rewrite count_key_cons.
    + rewrite !count_key_cons, IH. lia.
Qed.

(** The count of a key is the number of its occurrences. *)
Lemma count_key_size_table (k : K) (keys : list K) :
  count_key k (size_table cmp keys) = length (filter (λ x, x = k) keys).
Proof.
  induction keys as [|k0 keys IH]; simpl; [done|].
  rewrite count_key_bump, IH, filter_cons. by destruct (decide (k0 = k)).
Qed.

End Size.

End SizeFacts.

(** ** The frame of safe columns and the three one-column aggregates *)

Module FrameFacts.
Import PyStr Order OrderFacts Pandas Effects Etl Spec SizeFacts.

Lemma safe_row_lookup (r : gmap str cell) (c : str) :
  c ∈ safe_columns →
  filter (λ kv : str * str, kv.1 ∈ safe_columns) (omap id r) !! c = field c r.
Proof.
  intros Hc. rewrite map_lookup_filter, lookup_omap. unfold field.
  destruct (r !! c) as [[s|]|]; simpl; try done.
  by rewrite option_guard_True.
Qed.

Lemma df_safe_of_cons (r : gmap str cell) (R : records) :
  df_safe_of (r :: R)
  = filter (λ kv : str * str, kv.1 ∈ safe_columns) (omap id r) :: df_safe_of R.
Proof. done. Qed.

Lemma df_safe_of_app (R1 R2 : records) :
  df_safe_of (R1 ++ R2) = df_safe_of R1 ++ df_safe_of R2.
Proof. unfold df_safe_of, reindex, DataFrame. by rewrite !fmap_app. Qed.

Lemma dropna_cons (c : str) (r : row) (df : frame) :
  dropna [c] (r :: df)
  = match r !! c with
    | Some _ => r :: dropna [c] df
    | None => dropna [c] df
    end.
Proof.
  unfold dropna. rewrite filter_cons.
  destruct (r !! c) eqn:E; case_decide as H; try done.
  - destruct H. constructor; [by rewrite E | constructor].
  - apply Forall_cons_1 in H as [[? H] _]. congruence.
Qed.

Lemma group_key_single (c : str) (r : row) :
  group_key [c] r = (λ s, [s]) <$> r !! c.
Proof. unfold group_key. simpl. by destruct (r !! c). Qed.

(** The keys that a one-column aggregate groups: the non-null values of
    its source field, record by record. *)
Lemma single_keys (c : str) (R : records) :
  c ∈ safe_columns →
  omap (group_key [c]) (dropna [c] (df_safe_of R))
  = omap (λ r, (λ s, [s]) <$> field c r) R.
Proof.
  intros Hc. induction R as [|r R IH]; [done|].
  rewrite df_safe_of_cons, dropna_cons, safe_row_lookup by done. csimpl.
  destruct (field c r) as [s|] eqn:E; csimpl; [|done].
  by rewrite safe_row_lookup, E, IH.
Qed.

Lemma key_of_single (d : dimension) (r : gmap str cell) :
  d ≠ Location → key_of d r = (λ s, [s]) <$> field (source_field d) r.
Proof. destruct d; try done; intros _; simpl; by destruct (field _ r). Qed.

Lemma source_field_safe (d : dimension) : source_field d ∈ safe_columns.
Proof. destruct d; unfold safe_columns; simpl; set_solver. Qed.

(** Each one-column aggregate is the table of group sizes of the keys of
    its own dimension. *)
Lemma groups_single (d : dimension) (R : records) (t : stats) :
  d ≠ Location → table_of d R = Ok t →
  groups t = size_table key_compare (omap (key_of d) R).
Proof.
  intros Hd Ht.
  assert (omap (key_of d) R = omap (λ r, (λ s, [s]) <$> field (source_field d) r) R) as ->.
  { apply list_omap_ext. apply Forall2_same_length_lookup_2; [done|].
    intros i x y Hx Hy. assert (x = y) as -> by congruence. by apply key_of_single. }
  rewrite <-single_keys by apply source_field_safe.
  destruct d; try done; simpl in Ht; injection Ht as <-; done.
Qed.

Lemma omap_cons {A B : Type} (f : A → option B) (x : A) (l : list A) :
  omap f (x :: l)
  = match f x with
    | Some y => y :: omap f l
    | None => omap f l
    end.
Proof. done. Qed.

Lemma length_omap_is_Some {A B : Type} (f : A → option B) (l : list A) :
  length (omap f l) = length (filter (λ x, is_Some (f x)) l).
Proof.
  induction l as [|x l IH]; [done|]. csimpl. rewrite filter_cons.
  destruct (f x) eqn:E; case_decide as H; simpl; try by rewrite IH.
  destruct H. eauto.
Qed.

Lemma count_non_null_keys (d : dimension) (R : records) :
  d ≠ Location →
  length (omap (key_of d) R) = count_non_null (source_field d) R.
Proof.
  intros Hd. rewrite length_omap_is_Some. unfold count_non_null. f_equal.
  apply list_filter_iff. intros r. rewrite key_of_single by done.
  by rewrite fmap_is_Some.
Qed.

Lemma total_single (d : dimension) (R : records) (t : stats) :
  d ≠ Location → table_of d R = Ok t →
  total t = count_non_null (source_field d) R.
Proof.
  intros Hd Ht. unfold total. rewrite (groups_single d R t Hd Ht).
  by rewrite sum_size_table, count_non_null_keys.
Qed.

End FrameFacts.

(** ** The location aggregate *)

Module LocationFacts.
Import PyStr Order OrderFacts Pandas Effects Etl Spec SizeFacts FrameFacts.

Lemma lookup_set_cell (c c' : str) (v : cell) (r : row) :
  set_cell c v r !! c' = if decide (c = c') then v else r !! c'.
Proof.
  unfold set_cell. destruct v; case_decide; simplify_map_eq; done.
Qed.

Lemma zip_with_column {A : Type} (g : A → row → row) (h : cell → A) (c : str) (df : frame) :
  zip_with g (h <$> column c df) df = (λ r, g (h (r !! c)) r) <$> df.
Proof.
  unfold column. rewrite <-list_fmap_compose, zip_with_fmap_l, zip_with_diag. done.
Qed.

Lemma setitem_strip (c c' : str) (df : frame) :
  setitem c (str_strip (column c' df)) df
  = (λ r : row, set_cell c (strip <$> r !! c') r) <$> df.
Proof. unfold setitem, str_strip. apply zip_with_column. Qed.

(** The parts of a cell, padded to two columns. *)
Lemma parts_padded (c : cell) :
  let p := match c with
           | Some s => Some <$> split_n1 comma s
           | None => []
           end in
  p ++ replicate (2 - length p) None
  = match c with
    | Some s => let '(pre, post) := partition comma s in [Some pre; post]
    | None => [None; None]
    end.
Proof.
  destruct c as [s|]; [|done]. unfold split_n1.
  by destruct (partition comma s) as [pre [post|]].
Qed.

(** When the split gives two columns, lines 140-145 work row by row. *)
Lemma df_location_rows (df : frame) :
  (str_split comma (column (py "Location") (dropna [py "Location"] df))).1 = 2%nat →
  df_location_of df = Ok (location_row <$> dropna [py "Location"] df).
Proof.
  intros Hw. unfold df_location_of, setitem_frame. rewrite Hw.
  case_decide as H; [clear H|done]. f_equal.
  unfold str_split in *. cbv zeta in *. cbn [fst snd] in *. rewrite Hw.
  rewrite !setitem_strip. unfold setitem_scalar.
  rewrite <-!list_fmap_compose.
  rewrite zip_with_column, <-list_fmap_compose.
  apply list_fmap_ext. intros i r _. cbn [compose].
  unfold location_row. by rewrite <-parts_padded.
Qed.

Lemma df_location_raises (df : frame) :
  (str_split comma (column (py "Location") (dropna [py "Location"] df))).1 ≠ 2%nat →
  df_location_of df = Raise PandasError.
Proof.
  intros Hw. unfold df_location_of, setitem_frame.
  by case_decide as H.
Qed.

Ltac lookup_cells :=
  rewrite ?lookup_set_cell;
  repeat (let H := fresh "Hc" in
          case_decide as H; [try (by vm_compute in H)|try (by destruct H)]);
  try done.

Lemma location_row_city (r : row) (s : str) :
  r !! py "Location" = Some s →
  location_row r !! py "city" = Some (strip (partition comma s).1).
Proof.
  intros Hr. unfold location_row. rewrite Hr.
  destruct (partition comma s) as [pre post].
  cbn [zip zip_with foldl fst snd]. lookup_cells.
Qed.

Lemma location_row_state (r : row) (s : str) :
  r !! py "Location" = Some s →
  location_row r !! py "state" = strip <$> (partition comma s).2.
Proof.
  intros Hr. unfold location_row. rewrite Hr.
  destruct (partition comma s) as [pre post].
  cbn [zip zip_with foldl fst snd]. lookup_cells.
Qed.

Lemma location_row_null (r : row) :
  r !! py "Location" = None → location_row r !! py "city" = None.
Proof.
  intros Hr. unfold location_row. rewrite Hr.
  cbn [zip zip_with foldl fst snd]. lookup_cells.
Qed.

Lemma location_row_country (r : row) :
  location_row r !! py "country" = Some (py "United States").
Proof. unfold location_row. lookup_cells. Qed.

Lemma location_row_key (r : gmap str cell) (r' : row) :
  r' !! py "Location" = field (py "Location") r →
  group_key [py "country"; py "state"; py "city"] (location_row r') = location_key r.
Proof.
  intros Hr. unfold group_key, location_key. cbn [mapM].
  rewrite location_row_country.
  destruct (field (py "Location") r) as [s|].
  - rewrite (location_row_state r' s), (location_row_city r' s) by done.
    by destruct (partition comma s) as [pre [post|]].
  - rewrite location_row_null by done. by destruct (location_row r' !! py "state").
Qed.

Lemma width_nil : width [] = 0%nat.
Proof. done. Qed.

Lemma width_cons (r : gmap str cell) (R : records) :
  width (r :: R)
  = match field (py "Location") r with
    | Some s => (length (split_n1 comma s) `max` width R)%nat
    | None => width R
    end.
Proof.
  unfold width. rewrite df_safe_of_cons, dropna_cons, safe_row_lookup
    by (unfold safe_columns; set_solver).
  destruct (field (py "Location") r) as [s|] eqn:E; [|done].
  unfold str_split, column. cbv zeta. cbn [fst]. rewrite !fmap_cons.
  rewrite safe_row_lookup, E by (unfold safe_columns; set_solver).
  cbn [max_list]. by rewrite length_fmap.
Qed.

Lemma width_parseable (R : records) :
  (width R ≤ 2)%nat ∧ (width R = 2%nat ↔ Exists parseable R).
Proof.
  induction R as [|r R [IH1 IH2]].
  - rewrite width_nil. split; [lia|]. rewrite Exists_nil. split; [done|tauto].
  - rewrite width_cons, Exists_cons. unfold parseable at 1, location_key, split_n1.
    destruct (field (py "Location") r) as [s|].
    + destruct (partition comma s) as [pre [post|]]; cbn [length].
      * split; [lia|]. split; [eauto|lia].
      * split; [lia|]. rewrite <-IH2. split; [lia|].
        intros [[? [=]]|?]. lia.
    + split; [done|]. rewrite <-IH2. split; [tauto|]. by intros [[? [=]]|?].
Qed.

Lemma location_keys (R : records) :
  omap (group_key [py "country"; py "state"; py "city"])
    (location_row <$> dropna [py "Location"] (df_safe_of R))
  = omap location_key R.
Proof.
  induction R as [|r R IH]; [done|].
  assert (py "Location" ∈ safe_columns) as Hin by (unfold safe_columns; set_solver).
  rewrite df_safe_of_cons, dropna_cons, safe_row_lookup by done.
  destruct (field (py "Location") r) as [s|] eqn:E.
  - rewrite fmap_cons, !omap_cons, IH.
    by rewrite (location_row_key r) by (by rewrite safe_row_lookup).
  - rewrite IH, omap_cons. unfold location_key at 2. by rewrite E.
Qed.

(** The location step: it raises unless some [Location] has a comma; when
    it does not raise, its table is that of the group sizes of the
    records' location keys. *)
Lemma stats_location_spec (R : records) :
  stats_location R
  = if decide (Exists parseable R)
    then Ok {| key_columns := location_columns; count_column := py "alumni_count";
               groups := size_table key_compare (omap location_key R) |}
    else Raise PandasError.
Proof.
  unfold stats_location, stats_location_of.
  destruct (width_parseable R) as [Hle Hw]. unfold width in *.
  case_decide as H.
  - rewrite df_location_rows by by apply Hw.
    unfold reset_index, groupby_size. by rewrite location_keys.
  - rewrite df_location_raises; [done|]. by rewrite Hw.
Qed.

Lemma groups_location (R : records) (t : stats) :
  stats_location R = Ok t →
  groups t = size_table key_compare (omap location_key R).
Proof. rewrite stats_location_spec. case_decide; [|done]. by intros [= <-]. Qed.

Lemma stats_location_Ok (R : records) :
  Exists parseable R → ∃ t, stats_location R = Ok t.
Proof. intros H. rewrite stats_location_spec, decide_True by done. eauto. Qed.

Lemma stats_location_Raise (R : records) :
  ¬ Exists parseable R → stats_location R = Raise PandasError.
Proof. intros H. by rewrite stats_location_spec, decide_False. Qed.

(** Every aggregate that is produced is the table of group sizes of the
    keys of its own dimension. *)
Lemma groups_table_of (d : dimension) (R : records) (t : stats) :
  table_of d R = Ok t →
  groups t = size_table key_compare (omap (key_of d) R).
Proof.
  destruct d; try (by apply groups_single). apply groups_location.
Qed.

End LocationFacts.

(** ** Splitting and stripping strings *)

Module PyStrFacts.
Import PyStr.

Lemma partition_Some (sep : N) (s pre post : str) :
  partition sep s = (pre, Some post) → s = pre ++ sep :: post ∧ sep ∉ pre.
Proof.
  revert pre. induction s as [|c s IH]; intros pre; simpl; [done|].
  destruct (N.eqb_spec c sep) as [->|Hc].
  - intros [= <- <-]. split; [done|]. apply not_elem_of_nil.
  - destruct (partition sep s) as [pre' post'] eqn:E. intros [= <- ->].
    destruct (IH pre' eq_refl) as [-> Hpre]. split; [done|].
    rewrite not_elem_of_cons. auto.
Qed.

Lemma partition_None (sep : N) (s pre : str) :
  partition sep s = (pre, None) → pre = s ∧ sep ∉ s.
Proof.
  revert pre. induction s as [|c s IH]; intros pre; simpl.
  - intros [= <-]. split; [done|]. apply not_elem_of_nil.
  - destruct (N.eqb_spec c sep) as [->|Hc]; [done|].
    destruct (partition sep s) as [pre' post'] eqn:E. intros [= <- ->].
    destruct (IH pre' eq_refl) as [-> Hs]. split; [done|].
    rewrite not_elem_of_cons. auto.
Qed.

Lemma partition_app (sep : N) (a b : str) :
  sep ∉ a → partition sep (a ++ sep :: b) = (a, Some b).
Proof.
  induction a as [|c a IH]; simpl; intros Ha.
  - by rewrite N.eqb_refl.
  - apply not_elem_of_cons in Ha as [Hc Ha].
    destruct (N.eqb_spec c sep) as [->|_]; [done|]. by rewrite IH.
Qed.

Lemma partition_elem_of (sep : N) (s : str) :
  sep ∈ s ↔ is_Some (partition sep s).2.
Proof.
  destruct (partition sep s) as [pre [post|]] eqn:E; simpl.
  - apply partition_Some in E as [-> _]. split; [eauto|]. intros _. set_solver.
  - apply partition_None in E as [_ Hs]. split; [done|]. by intros [? [=]].
Qed.

Lemma lstrip_decompose (s : str) : ∃ w, blank w ∧ s = w ++ lstrip s.
Proof.
  induction s as [|c s (w & Hw & IH)]; simpl.
  - exists []. split; [constructor|done].
  - destruct (isspace c) eqn:E.
    + exists (c :: w). split; [by constructor|]. simpl. by rewrite <-IH.
    + exists []. split; [constructor|done].
Qed.

Lemma lstrip_blank_app (w s : str) : blank w → lstrip (w ++ s) = lstrip s.
Proof. induction 1 as [|c w Hc Hw IH]; simpl; [done|]. by rewrite Hc. Qed.

Lemma lstrip_cons_nonspace (c : N) (s : str) :
  isspace c = false → lstrip (c :: s) = c :: s.
Proof. intros Hc. simpl. by rewrite Hc. Qed.

Lemma lstrip_head (s : str) :
  match lstrip s with
  | [] => True
  | c :: _ => isspace c = false
  end.
Proof.
  induction s as [|c s IH]; simpl; [done|]. by destruct (isspace c) eqn:E.
Qed.

Lemma lstrip_idemp (s : str) : lstrip (lstrip s) = lstrip s.
Proof.
  pose proof (lstrip_head s) as H. destruct (lstrip s) as [|c t]; [done|].
  by apply lstrip_cons_nonspace.
Qed.

Lemma lstrip_snoc (a : str) (c : N) :
  isspace c = false → lstrip (a ++ [c]) = lstrip a ++ [c].
Proof.
  intros Hc. induction a as [|x a IH]; simpl.
  - by rewrite Hc.
  - by destruct (isspace x).
Qed.

Lemma rstrip_cons_nonspace (c : N) (s : str) :
  isspace c = false → rstrip (c :: s) = c :: rstrip s.
Proof.
  intros Hc. unfold rstrip. simpl. by rewrite lstrip_snoc, rev_unit.
Qed.

Lemma rstrip_idemp (s : str) : rstrip (rstrip s) = rstrip s.
Proof. unfold rstrip. by rewrite rev_involutive, lstrip_idemp. Qed.

Lemma rstrip_decompose (s : str) : ∃ w, blank w ∧ s = rstrip s ++ w.
Proof.
  destruct (lstrip_decompose (rev s)) as (w & Hw & Hs).
  exists (rev w). split.
  - unfold blank in *. rewrite Forall_forall in *. intros c Hc. apply Hw.
    by rewrite list_elem_of_In, in_rev, <-list_elem_of_In.
  - unfold rstrip. by rewrite <-rev_app_distr, <-Hs, rev_involutive.
Qed.

(** [strip] removes whitespace at the two ends and nothing else. *)
Lemma strip_decompose (s : str) :
  ∃ w1 w2, blank w1 ∧ blank w2 ∧ s = w1 ++ strip s ++ w2.
Proof.
  destruct (lstrip_decompose s) as (w1 & Hw1 & Hs).
  destruct (rstrip_decompose (lstrip s)) as (w2 & Hw2 & Hs').
  exists w1, w2. unfold strip. by rewrite <-Hs', <-Hs.
Qed.

(** The result of [strip] neither starts nor ends with whitespace. *)
Lemma lstrip_strip (s : str) : lstrip (strip s) = strip s.
Proof.
  unfold strip. pose proof (lstrip_head s) as H.
  destruct (lstrip s) as [|c t]; [done|].
  rewrite rstrip_cons_nonspace by done. by apply lstrip_cons_nonspace.
Qed.

Lemma rstrip_strip (s : str) : rstrip (strip s) = strip s.
Proof. unfold strip. apply rstrip_idemp. Qed.

Lemma strip_idemp (s : str) : strip (strip s) = strip s.
Proof. unfold strip at 1. by rewrite lstrip_strip, rstrip_strip. Qed.

Lemma strip_blank_app (w s : str) : blank w → strip (w ++ s) = strip s.
Proof. intros Hw. unfold strip. by rewrite lstrip_blank_app. Qed.

Lemma elem_of_strip (c : N) (s : str) : c ∈ strip s → c ∈ s.
Proof.
  destruct (strip_decompose s) as (w1 & w2 & _ & _ & Hs). intros Hc.
  rewrite Hs. set_solver.
Qed.

Lemma without_whitespace_app (a b : str) :
  without_whitespace (a ++ b) = without_whitespace a ++ without_whitespace b.
Proof. apply filter_app. Qed.

Lemma without_whitespace_blank (w : str) : blank w → without_whitespace w = [].
Proof.
  unfold without_whitespace. induction 1 as [|c w Hc Hw IH]; [done|].
  rewrite filter_cons_False; [done|]. by rewrite Hc.
Qed.

Lemma without_whitespace_strip (s : str) :
  without_whitespace (strip s) = without_whitespace s.
Proof.
  destruct (strip_decompose s) as (w1 & w2 & Hw1 & Hw2 & Hs). rewrite Hs at 2.
  rewrite !without_whitespace_app.
  rewrite (without_whitespace_blank w1), (without_whitespace_blank w2) by done.
  by rewrite app_nil_r.
Qed.

End PyStrFacts.

(* ===================================================================== *)
(** * The aggregation *)
(* ===================================================================== *)

Module TransformFacts.
Import PyStr Order OrderFacts Pandas Effects Etl Spec Samples.
Import SizeFacts FrameFacts LocationFacts PyStrFacts.

Ltac by_compute := vm_compute; reflexivity.
Ltac decide_it := refine (bool_decide_unpack _ _); vm_compute; exact I.

Lemma length_filter_omap {A B : Type} `{!EqDecision B} (f : A → option B) (k : B)
    (l : list A) :
  length (filter (λ y, y = k) (omap f l)) = length (filter (λ x, f x = Some k) l).
Proof.
  induction l as [|x l IH]; [done|]. rewrite omap_cons, (filter_cons _ x).
  destruct (f x) as [y|] eqn:E.
  - rewrite filter_cons.
    destruct (decide (y = k)) as [->|Hy]; case_decide as H; simpl; try congruence.
  - case_decide as H; [done|]. exact IH.
Qed.

(** Each aggregate that is produced counts, for every key, the records that
    hold that key in the aggregate's own dimension. *)
Lemma count_key_table_of (d : dimension) (R : records) (t : stats) (k : list str) :
  table_of d R = Ok t → count_key k (groups t) = occurrences d k R.
Proof.
  intros Ht. rewrite (groups_table_of d R t Ht), count_key_size_table by apply _.
  apply length_filter_omap.
Qed.

Lemma occurrences_insert (d : dimension) (k : list str) (R1 R2 : records)
    (r : gmap str cell) :
  key_of d r = Some k →
  occurrences d k (R1 ++ r :: R2) = S (occurrences d k (R1 ++ R2)).
Proof.
  intros Hk. unfold occurrences.
  rewrite !filter_app, filter_cons_True, !length_app by done. simpl. lia.
Qed.

Lemma keys_without (d : dimension) (R1 R2 : records) (r : gmap str cell) :
  key_of d r = None →
  omap (key_of d) (R1 ++ r :: R2) = omap (key_of d) (R1 ++ R2).
Proof. intros Hk. by rewrite !omap_app, omap_cons, Hk. Qed.

Lemma parseable_keys (R : records) :
  Exists parseable R ↔ omap location_key R ≠ [].
Proof.
  induction R as [|r R IH]; [rewrite Exists_nil; done|].
  rewrite Exists_cons, omap_cons, IH. unfold parseable.
  destruct (location_key r); split; try done; eauto.
  - intros [[? [=]]|?]; done.
Qed.

(** An aggregate depends on the record set through the keys of its own
    dimension only. *)
Lemma table_of_ext (d : dimension) (R R' : records) :
  omap (key_of d) R = omap (key_of d) R' → table_of d R = table_of d R'.
Proof.
  intros HR.
  assert (∀ c, c ∈ safe_columns →
          omap (λ r, (λ s, [s]) <$> field c r) R = omap (λ r, (λ s, [s]) <$> field c r) R' →
          groupby_size [c] (dropna [c] (df_safe_of R))
          = groupby_size [c] (dropna [c] (df_safe_of R'))) as Hsingle.
  { intros c Hc Heq. unfold groupby_size. by rewrite !single_keys, Heq. }
  assert (∀ d, d ≠ Location →
          omap (key_of d) R = omap (λ r, (λ s, [s]) <$> field (source_field d) r) R) as HkR.
  { intros d' Hd'. apply list_omap_ext, Forall2_same_length_lookup_2; [done|].
    intros i x y Hx Hy. assert (x = y) as -> by congruence. by apply key_of_single. }
  assert (∀ d, d ≠ Location →
          omap (key_of d) R' = omap (λ r, (λ s, [s]) <$> field (source_field d) r) R') as HkR'.
  { intros d' Hd'. apply list_omap_ext, Forall2_same_length_lookup_2; [done|].
    intros i x y Hx Hy. assert (x = y) as -> by congruence. by apply key_of_single. }
  destruct d; simpl.
  - f_equal. unfold stats_company, stats_company_of. do 2 f_equal.
    apply Hsingle; [apply (source_field_safe Company)|].
    specialize (HkR Company ltac:(done)). specialize (HkR' Company ltac:(done)).
    cbn [source_field] in HkR, HkR'. by rewrite <-HkR, <-HkR'.
  - f_equal. unfold stats_job_title, stats_jobs_of. do 2 f_equal.
    apply Hsingle; [apply (source_field_safe JobTitle)|].
    specialize (HkR JobTitle ltac:(done)). specialize (HkR' JobTitle ltac:(done)).
    cbn [source_field] in HkR, HkR'. by rewrite <-HkR, <-HkR'.
  - f_equal. unfold stats_major, stats_major_of. do 2 f_equal.
    apply Hsingle; [apply (source_field_safe Major)|].
    specialize (HkR Major ltac:(done)). specialize (HkR' Major ltac:(done)).
    cbn [source_field] in HkR, HkR'. by rewrite <-HkR, <-HkR'.
  - change (omap location_key R = omap location_key R') in HR.
    rewrite !stats_location_spec.
    destruct (decide (Exists parseable R)) as [H|H];
      destruct (decide (Exists parseable R')) as [H'|H'];
      rewrite ?HR; try done; rewrite parseable_keys in H, H'; by rewrite HR in H.
Qed.

Lemma size_table_keys {K : Type} (cmp : K → K → comparison) (x : K) (keys : list K) :
  x ∈ fst <$> size_table cmp keys → x ∈ keys.
Proof.
  induction keys as [|k keys IH]; simpl; [done|].
  intros Hx. apply bump_keys in Hx as [->|Hx].
  - apply list_elem_of_here.
  - apply list_elem_of_further. by apply IH.
Qed.

Lemma count_parseable_keys (R : records) :
  count_parseable R = length (omap location_key R).
Proof. by rewrite length_omap_is_Some. Qed.

Lemma location_key_country (r : gmap str cell) (k : list str) :
  location_key r = Some k → k !! 0%nat = Some (py "United States").
Proof.
  unfold location_key. destruct (field _ r) as [s|]; [|done].
  destruct (partition comma s) as [pre [post|]]; [|done]. by intros [= <-].
Qed.

(** Whenever some record has a [Location] with a comma, the location table
    is produced, its counts sum to the number of such records, and every
    row has the fixed country. *)
Lemma stats_location_law (R : records) :
  Exists parseable R →
  ∃ t, stats_location R = Ok t ∧ total t = count_parseable R ∧
       all_in_country t (py "United States").
Proof.
  intros HR. destruct (stats_location_Ok R HR) as [t Ht]. exists t.
  split; [done|]. unfold total, all_in_country. rewrite (groups_location R t Ht). split.
  - by rewrite sum_size_table, count_parseable_keys.
  - apply Forall_forall. intros [k n] Hk. simpl.
    assert (k ∈ omap location_key R) as Hin.
    { apply (size_table_keys key_compare). apply list_elem_of_fmap. by exists (k, n). }
    apply list_elem_of_omap in Hin as (r & _ & Hr). by eapply location_key_country.
Qed.

Lemma length_dropna (c : str) (R : records) :
  c ∈ safe_columns →
  length (dropna [c] (df_safe_of R)) = count_non_null c R.
Proof.
  intros Hc. unfold count_non_null. induction R as [|r R IH]; [done|].
  rewrite df_safe_of_cons, dropna_cons, safe_row_lookup, filter_cons by done.
  destruct (field c r) eqn:E; case_decide as H; simpl; try by rewrite IH.
  destruct H. eauto.
Qed.

Lemma dropna_app (c : str) (df1 df2 : frame) :
  dropna [c] (df1 ++ df2) = dropna [c] df1 ++ dropna [c] df2.
Proof. apply filter_app. Qed.

(** The row that lines 140-145 make of a record with a non-null location. *)
Lemma df_location_lookup (R1 R2 : records) (r : gmap str cell) (s : str) (df : frame) :
  field (py "Location") r = Some s →
  df_location_of (df_safe_of (R1 ++ r :: R2)) = Ok df →
  ∃ row, df !! count_non_null (py "Location") R1 = Some row ∧
         row !! py "city" = Some (strip (partition comma s).1) ∧
         row !! py "state" = strip <$> (partition comma s).2 ∧
         row !! py "country" = Some (py "United States").
Proof.
  intros Hs Hdf.
  assert (py "Location" ∈ safe_columns) as Hin by (unfold safe_columns; set_solver).
  destruct (decide (width (R1 ++ r :: R2) = 2%nat)) as [Hw|Hw]; unfold width in Hw.
  2: { by rewrite df_location_raises in Hdf. }
  rewrite df_location_rows in Hdf by done. injection Hdf as <-.
  set (r' := filter (λ kv : str * str, kv.1 ∈ safe_columns) (omap id r)).
  assert (r' !! py "Location" = Some s) as Hr' by (unfold r'; by rewrite safe_row_lookup).
  exists (location_row r'). split.
  - rewrite df_safe_of_app, df_safe_of_cons, dropna_app, dropna_cons. fold r'.
    rewrite Hr', fmap_app, fmap_cons, <-(length_dropna _ R1) by done.
    rewrite lookup_app_r by (by rewrite length_fmap).
    by rewrite length_fmap, Nat.sub_diag.
  - by rewrite (location_row_city r' s), (location_row_state r' s), location_row_country.
Qed.

Lemma parseable_iff (r : gmap str cell) :
  parseable r ↔ ∃ s, field (py "Location") r = Some s ∧ comma ∈ s.
Proof.
  unfold parseable, location_key. destruct (field _ r) as [s|].
  - pose proof (partition_elem_of comma s) as Hs.
    destruct (partition comma s) as [pre [post|]]; simpl in Hs; split.
    + intros _. exists s. split; [done|]. apply Hs. eauto.
    + eauto.
    + by intros [? [=]].
    + intros (s' & [= <-] & Hin). by apply Hs in Hin.
  - split; [by intros [? [=]]|]. by intros (s & [=] & _).
Qed.

(** ** The claims about the aggregation *)

(** The scenario of the specification: two records of Acme in Austin and
    Dallas, and one in Austin without a company. *)
Example scenario_tables :
  groups (stats_company scenario) = [([py "Acme"], 2%nat)] ∧
  key_columns (stats_company scenario) = [py "company_name"] ∧
  count_column (stats_company scenario) = py "alumni_count" ∧
  stats_location scenario = Ok scenario_location.
Proof. repeat split; by_compute. Qed.

(** C1. For every raw record set, the counts of [stats_company] sum to the
    number of records with a non-null [Current Company], and likewise for
    [stats_job_title] with [Current Title] and [stats_major] with [Major]. *)
Theorem C1_counts_sum_to_non_null (R : records) :
  total (stats_company R) = count_non_null (py "Current Company") R ∧
  total (stats_job_title R) = count_non_null (py "Current Title") R ∧
  total (stats_major R) = count_non_null (py "Major") R.
Proof.
  split; [|split].
  - by apply (total_single Company).
  - by apply (total_single JobTitle).
  - by apply (total_single Major).
Qed.

(** C3. A location with at least one comma is split at the first comma
    only, both parts are stripped, and city, comma, space, state is the
    original location up to whitespace normalisation. *)
Theorem C3_location_round_trip (s : str) : comma ∈ s → round_trip s.
Proof.
  intros Hs. apply partition_elem_of in Hs as [post Hpost].
  destruct (partition comma s) as [pre post'] eqn:E. simpl in Hpost. subst post'.
  pose proof (partition_Some _ _ _ _ E) as [Heq Hpre].
  exists pre, post. split; [|split; [done|split; [done|]]].
  { unfold split_n1. by rewrite E. }
  cbv zeta. split; [|split; [|split]].
  - destruct (strip_decompose pre) as (w1 & w2 & Hw1 & Hw2 & Hpre').
    destruct (strip_decompose post) as (w3 & w4 & Hw3 & Hw4 & Hpost').
    exists w1, w2, w3, w4. repeat (split; [done|]).
    rewrite Heq. rewrite Hpre' at 1. rewrite Hpost' at 1.
    by rewrite <-!app_assoc.
  - rewrite Heq. change (py ", ") with [comma; 32]. change (comma :: post) with ([comma] ++ post).
    by rewrite !without_whitespace_app, !without_whitespace_strip.
  - exists (strip pre), (32 :: strip post). split; [|split].
    + unfold split_n1. change (py ", " ++ strip post) with (comma :: 32 :: strip post).
      rewrite partition_app; [done|]. intros Hin. by apply Hpre, elem_of_strip.
    + apply strip_idemp.
    + change (32 :: strip post) with ([32] ++ strip post).
      rewrite (strip_blank_app [32]) by (by repeat constructor). apply strip_idemp.
  - intros R1 r R2 Hr. unfold splits_to.
    assert (Exists parseable (R1 ++ r :: R2)) as Hex.
    { apply Exists_app. right. apply Exists_cons. left. apply parseable_iff.
      exists s. split; [done|]. rewrite Heq. set_solver. }
    destruct (width_parseable (R1 ++ r :: R2)) as [_ Hw]. apply Hw in Hex.
    unfold width in Hex. pose proof (df_location_rows _ Hex) as Hdf.
    destruct (df_location_lookup R1 R2 r s _ Hr Hdf) as (row & Hrow & Hcity & Hstate & _).
    rewrite E in Hcity, Hstate. eauto 10.
Qed.

Lemma C3_witness :
  comma ∈ py "  San Jose ,CA, USA " ∧ round_trip (py "  San Jose ,CA, USA ").
Proof.
  split; [decide_it|]. apply C3_location_round_trip. decide_it.
Defined.

(** C2, as the code has it.  A record whose [Location] is non-null and has
    no comma gets, from the split, a city equal to the whole stripped
    location and a null state (in a record set where some other location has
    a comma); the grouping then leaves the record out: [stats_location] is
    what it is for the record set without that record. *)
Theorem C2_no_comma_left_out (R1 R2 : records) (r : gmap str cell) (s : str) :
  field (py "Location") r = Some s → comma ∉ s →
  (Exists parseable (R1 ++ R2) → splits_to R1 r R2 (Some (strip s)) None) ∧
  stats_location (R1 ++ r :: R2) = stats_location (R1 ++ R2).
Proof.
  intros Hr Hs.
  assert (partition comma s = (s, None)) as Hp.
  { destruct (partition comma s) as [pre [post|]] eqn:E.
    - apply partition_Some in E as [-> _]. destruct Hs. set_solver.
    - by apply partition_None in E as [-> _]. }
  assert (location_key r = None) as Hk by (unfold location_key; by rewrite Hr, Hp).
  split.
  - intros Hex. unfold splits_to.
    assert (Exists parseable (R1 ++ r :: R2)) as Hex'.
    { rewrite Exists_app, Exists_cons. rewrite Exists_app in Hex. tauto. }
    destruct (width_parseable (R1 ++ r :: R2)) as [_ Hw]. apply Hw in Hex'.
    unfold width in Hex'. pose proof (df_location_rows _ Hex') as Hdf.
    destruct (df_location_lookup R1 R2 r s _ Hr Hdf) as (row & Hrow & Hcity & Hstate & _).
    rewrite Hp in Hcity, Hstate. eauto 10.
  - apply (table_of_ext Location). by apply (keys_without Location).
Qed.

Lemma C2_witness :
  field (py "Location") remote = Some (py "Remote") ∧ (comma ∉ py "Remote") ∧
  (Exists parseable ([austin] ++ []) → splits_to [austin] remote [] (Some (strip (py "Remote"))) None) ∧
  stats_location ([austin] ++ remote :: []) = stats_location ([austin] ++ []).
Proof.
  split; [by_compute|]. split; [decide_it|].
  apply (C2_no_comma_left_out [austin] [] remote (py "Remote")); [by_compute|decide_it].
Defined.

(** C2 as stated fails: with one location that has a comma and one that has
    none, the second record has no row in [stats_location] and is not
    counted. *)
Lemma C2_counterexample :
  field (py "Location") remote = Some (py "Remote") ∧ (comma ∉ py "Remote") ∧
  ∃ t, stats_location [austin; remote] = Ok t ∧
       groups t = [([py "United States"; py "TX"; py "Austin"], 1%nat)] ∧
       ¬ has_city_row t (strip (py "Remote")) ∧
       total t = 1%nat ∧ count_non_null (py "Location") [austin; remote] = 2%nat.
Proof.
  split; [by_compute|]. split; [decide_it|].
  eexists. split; [by_compute|]. split; [by_compute|]. split; [|split; by_compute].
  intros (k & n & Hin & Hk). cbn [groups] in Hin.
  apply list_elem_of_singleton in Hin. injection Hin as -> ->.
  vm_compute in Hk. discriminate Hk.
Qed.

(** C4, at a record set in which no location has a comma: the location step
    raises, so there is no [stats_location] whose counts could sum to 0, and
    the run ends with that exception after the fetch, no load attempted. *)
Theorem C4_raises_without_parseable_location :
  count_parseable [remote] = 0%nat ∧
  stats_location [remote] = Raise PandasError ∧
  stats_location [] = Raise PandasError ∧
  (run_etl (healthy [remote]) sample_globals empty_world).1 = Raise PandasError ∧
  calls (run_etl (healthy [remote]) sample_globals empty_world).2 = [AirtableGetAll] ∧
  warehouse (run_etl (healthy [remote]) sample_globals empty_world).2 = ∅.
Proof. repeat split; by_compute. Qed.

(** C5. The four aggregates are computed independently: whether a record is
    in an aggregate, and under which key, depends on the record's field of
    that dimension alone.  A record without a key in a dimension leaves
    that aggregate as it is without the record; a record with a key adds
    one to the count of its key, whatever its other fields are.  In
    particular a record without [Current Title] and with a [Current Company]
    is counted in [stats_company] and left out of [stats_job_title]. *)
Theorem C5_aggregates_independent (R1 R2 : records) (r : gmap str cell) :
  (∀ d,
     (key_of d r = None → table_of d (R1 ++ r :: R2) = table_of d (R1 ++ R2)) ∧
     (∀ k, key_of d r = Some k →
           ∃ t, table_of d (R1 ++ r :: R2) = Ok t ∧
                count_key k (groups t) = S (occurrences d k (R1 ++ R2)))) ∧
  (∀ c, field (py "Current Title") r = None →
        field (py "Current Company") r = Some c →
        count_key [c] (groups (stats_company (R1 ++ r :: R2)))
        = S (occurrences Company [c] (R1 ++ R2)) ∧
        stats_job_title (R1 ++ r :: R2) = stats_job_title (R1 ++ R2)).
Proof.
  assert (∀ d,
     (key_of d r = None → table_of d (R1 ++ r :: R2) = table_of d (R1 ++ R2)) ∧
     (∀ k, key_of d r = Some k →
           ∃ t, table_of d (R1 ++ r :: R2) = Ok t ∧
                count_key k (groups t) = S (occurrences d k (R1 ++ R2)))) as Hall.
  { intros d. split.
    - intros Hk. by apply table_of_ext, keys_without.
    - intros k Hk.
      assert (∃ t, table_of d (R1 ++ r :: R2) = Ok t) as [t Ht].
      { destruct d; simpl; eauto. apply stats_location_Ok.
        rewrite Exists_app, Exists_cons. right. left. unfold parseable.
        change (location_key r = Some k) in Hk. by rewrite Hk. }
      exists t. split; [done|].
      by rewrite (count_key_table_of d _ t k Ht), occurrences_insert. }
  split; [exact Hall|].
  intros c Ht Hc. split.
  - destruct (Hall Company) as [_ H]. destruct (H [c]) as (t & [= <-] & Hn); [|done].
    simpl. by rewrite Hc.
  - destruct (Hall JobTitle) as [H _]. simpl in H.
    rewrite Ht in H. specialize (H eq_refl). congruence.
Qed.

(** A record with a company and a major and no title: it is counted under
    its company and its major and is not in the job title table. *)
Example untitled_record :
  field (py "Current Title") untitled = None ∧
  groups (stats_company [austin; untitled]) = [([py "Acme"], 2%nat)] ∧
  groups (stats_job_title [austin; untitled]) = [] ∧
  groups (stats_major [austin; untitled]) = [([py "Physics"], 1%nat)].
Proof. repeat split; by_compute. Qed.

(** C10. Each of the four aggregates is a frequency table: no key (key
    triple for [stats_location]) is in two rows, and no count is below 1.
    For [stats_location] this holds of the table whenever the location step
    yields one; it yields none only when no record has a parseable
    location. *)
Theorem C10_frequency_tables (R : records) :
  well_formed (groups (stats_company R)) ∧
  well_formed (groups (stats_job_title R)) ∧
  well_formed (groups (stats_major R)) ∧
  match stats_location R with
  | Ok t => well_formed (groups t)
  | Raise _ => ¬ Exists parseable R
  end.
Proof.
  assert (∀ d t, table_of d R = Ok t → well_formed (groups t)) as H.
  { intros d t Ht. rewrite (groups_table_of d R t Ht).
    apply size_table_well_formed, _. }
  split; [by apply (H Company)|]. split; [by apply (H JobTitle)|].
  split; [by apply (H Major)|].
  destruct (stats_location R) as [t|e] eqn:E.
  - by apply (H Location).
  - rewrite stats_location_spec in E. by case_decide.
Qed.

End TransformFacts.

(* ===================================================================== *)
(** * The run *)
(* ===================================================================== *)

Module RunFacts.
Import PyStr Order Pandas Effects Etl Spec Samples.
Local Open Scope etl_scope.

Ltac by_compute := vm_compute; reflexivity.
Ltac decide_it := refine (bool_decide_unpack _ _); vm_compute; exact I.

Lemma bind_raise {A B : Type} (m : M A) (k : A → M B) (w w' : world) (e : exn) :
  m w = (Raise e, w') → bind m k w = (Raise e, w').
Proof. intros H. unfold bind. by rewrite H. Qed.

Lemma bind_ok {A B : Type} (m : M A) (k : A → M B) (w w' : world) (a : A) :
  m w = (Ok a, w') → bind m k w = k a w'.
Proof. intros H. unfold bind. by rewrite H. Qed.

Lemma bind_print {B : Type} (line : str) (k : unit → M B) (w : world) :
  bind (print line) k w = k tt (printed line w).
Proof. done. Qed.

Lemma bind_call {B : Type} (c : call) (k : unit → M B) (w : world) :
  bind (record_call c) k w = k tt (called c w).
Proof. done. Qed.

Lemma calls_printed (line : str) (w : world) : calls (printed line w) = calls w.
Proof. done. Qed.

Lemma warehouse_printed (line : str) (w : world) :
  warehouse (printed line w) = warehouse w.
Proof. done. Qed.

Lemma calls_called (c : call) (w : world) : calls (called c w) = calls w ++ [c].
Proof. done. Qed.

Lemma warehouse_called (c : call) (w : world) : warehouse (called c w) = warehouse w.
Proof. done. Qed.

Lemma stdout_printed (line : str) (w : world) :
  stdout (printed line w) = stdout w ++ [line].
Proof. done. Qed.

Lemma stdout_called (c : call) (w : world) : stdout (called c w) = stdout w.
Proof. done. Qed.

Lemma try_except_ok {A : Type} (body : M A) (handler : exn → option (M A))
    (w w' : world) (a : A) :
  body w = (Ok a, w') → try_except body handler w = (Ok a, w').
Proof. intros H. unfold try_except. by rewrite H. Qed.

Lemma try_except_raise {A : Type} (body : M A) (handler : exn → option (M A))
    (w w' : world) (e : exn) :
  body w = (Raise e, w') →
  try_except body handler w
  = match handler e with
    | Some h => h w'
    | None => (Raise e, w')
    end.
Proof. intros H. unfold try_except. by rewrite H. Qed.

Lemma airtable_get_all_ok (sv : services) (w : world)
    (all_records : list airtable_record) :
  get_all sv = Ok all_records →
  airtable_get_all sv w = (Ok all_records, called AirtableGetAll w).
Proof.
  intros H. unfold airtable_get_all. rewrite bind_call. unfold of_result. by rewrite H.
Qed.

(** *** Set-up *)

Lemma not_all_truthy (env : gmap str str) (name : str) :
  name ∈ config_names → truthy (env !! name) = false →
  forallb truthy ((λ n, env !! n) <$> config_names) = false.
Proof.
  intros Hin Hf. apply not_true_is_false. intros Hall.
  rewrite forallb_forall in Hall. rewrite <-not_true_iff_false in Hf. apply Hf, Hall.
  apply list_elem_of_In, list_elem_of_fmap. eauto.
Qed.

(** The set-up stops the process, before any client is made, when a
    configuration value is not truthy. *)
Lemma setup_rejects (sv : services) (w : world) (name : str) :
  name ∈ config_names → truthy ((environ w ∪ dotenv sv) !! name) = false →
  setup sv w = (Raise SystemExit, after_missing_config sv w).
Proof.
  intros Hin Hf. pose proof (not_all_truthy _ _ Hin Hf) as Hall.
  unfold setup, bind, print, printed, load_dotenv, getenv, config_values.
  cbn [environ stdout calls warehouse AIRTABLE_BASE_ID AIRTABLE_TABLE_NAME
       AIRTABLE_API_KEY GCP_PROJECT_ID BIGQUERY_DATASET_ID].
  unfold config_names in Hall. cbn [fmap list_fmap] in Hall. rewrite Hall.
  cbn [negb]. unfold after_missing_config, exit, raise.
  cbn [environ stdout calls warehouse]. by rewrite <-!app_assoc.
Qed.

Lemma main_rejects (sv : services) (w : world) (name : str) :
  name ∈ config_names → truthy ((environ w ∪ dotenv sv) !! name) = false →
  main sv w = (Raise SystemExit, after_missing_config sv w).
Proof.
  intros Hin Hf. unfold main. apply bind_raise. by apply (setup_rejects sv w name).
Qed.

(** C6. If one of the five configuration values is missing from the
    environment (as it is after [load_dotenv()]), the process terminates
    at the set-up: no client is constructed and no request is made (the
    interactions with the services are what they were), and the last line
    printed names all five configuration variables. *)
Theorem C6_missing_config_terminates (sv : services) (w : world) (name : str) :
  name ∈ config_names →
  (environ w ∪ dotenv sv) !! name = None →
  main sv w
  = (Raise SystemExit,
     {| environ := environ w ∪ dotenv sv;
        stdout := stdout w ++ [py "Loading environment variables..."; missing_line1;
                               missing_line2];
        calls := calls w;
        warehouse := warehouse w |}) ∧
  Forall (λ n, contains n missing_line2 = true) config_names.
Proof.
  intros Hin Hnone. split.
  - apply (main_rejects sv w name Hin). by rewrite Hnone.
  - repeat constructor.
Qed.

Lemma C6_witness :
  py "GCP_PROJECT_ID" ∈ config_names ∧
  (environ empty_world ∪ dotenv unreachable) !! py "GCP_PROJECT_ID" = None ∧
  main unreachable empty_world
  = (Raise SystemExit,
     {| environ := environ empty_world ∪ dotenv unreachable;
        stdout := stdout empty_world ++ [py "Loading environment variables..."; missing_line1;
                                         missing_line2];
        calls := calls empty_world;
        warehouse := warehouse empty_world |}) ∧
  Forall (λ n, contains n missing_line2 = true) config_names.
Proof.
  split; [decide_it|]. split; [by_compute|].
  apply (C6_missing_config_terminates unreachable empty_world (py "GCP_PROJECT_ID"));
    [decide_it|by_compute].
Defined.

(** C9. A configuration value that is present and is the empty string is
    treated like a missing one: the process terminates at the set-up with
    the same diagnostic, before any client is constructed; the result, the
    output, the interactions and the warehouse are those of the run in
    which the variable is not set at all. *)
Theorem C9_empty_config_is_missing (sv : services) (w : world) (name : str) :
  name ∈ config_names →
  (environ w ∪ dotenv sv) !! name = Some [] →
  main sv w
  = (Raise SystemExit,
     {| environ := environ w ∪ dotenv sv;
        stdout := stdout w ++ [py "Loading environment variables..."; missing_line1;
                               missing_line2];
        calls := calls w;
        warehouse := warehouse w |}) ∧
  let unset := main (unset_dotenv name sv) (unset_environ name w) in
  (main sv w).1 = unset.1 ∧ stdout (main sv w).2 = stdout unset.2 ∧
  calls (main sv w).2 = calls unset.2 ∧ warehouse (main sv w).2 = warehouse unset.2.
Proof.
  intros Hin Hempty.
  assert (main sv w = (Raise SystemExit, after_missing_config sv w)) as Hrun.
  { apply (main_rejects sv w name Hin). by rewrite Hempty. }
  assert (main (unset_dotenv name sv) (unset_environ name w)
          = (Raise SystemExit,
             after_missing_config (unset_dotenv name sv) (unset_environ name w))) as Hunset.
  { apply (main_rejects _ _ name Hin). cbn [environ unset_environ dotenv unset_dotenv].
    by rewrite lookup_union, !lookup_delete_eq. }
  split; [exact Hrun|]. cbv zeta. by rewrite Hrun, Hunset.
Qed.

Lemma C9_witness :
  let w := {| environ := <[py "AIRTABLE_API_KEY" := []]> full_environ;
              stdout := []; calls := []; warehouse := ∅ |} in
  py "AIRTABLE_API_KEY" ∈ config_names ∧
  (environ w ∪ dotenv (healthy scenario)) !! py "AIRTABLE_API_KEY" = Some [] ∧
  (main (healthy scenario) w).1 = Raise SystemExit ∧
  calls (main (healthy scenario) w).2 = [].
Proof.
  cbv zeta. split; [decide_it|]. split; [by_compute|].
  destruct (C9_empty_config_is_missing (healthy scenario)
              {| environ := <[py "AIRTABLE_API_KEY" := []]> full_environ;
                 stdout := []; calls := []; warehouse := ∅ |}
              (py "AIRTABLE_API_KEY")) as [-> _]; [decide_it|by_compute|].
  split; reflexivity.
Defined.

(** *** Extraction *)

(** C7. If the fetch from the source fails, the run stops there: the only
    interaction with the services is the fetch, so no load is attempted and
    the warehouse is as it was; nothing of the transform is run (the output
    ends with the extraction diagnostic).  After an [Exception] the function
    returns; any other exception leaves it. *)
Theorem C7_extraction_failure_aborts (sv : services) (g : globals) (w : world) (e : exn) :
  get_all sv = Raise e →
  run_etl sv g w
  = (if is_Exception e then Ok tt else Raise e,
     {| environ := environ w;
        stdout := stdout w ++ extraction_lines e;
        calls := calls w ++ [AirtableGetAll];
        warehouse := warehouse w |}).
Proof.
  intros Hget.
  unfold run_etl. rewrite !bind_print.
  match goal with
  | |- bind (try_except ?body ?handler) _ ?w1 = _ =>
      assert (body w1 = (Raise e, called AirtableGetAll w1)) as Hbody
  end.
  { apply bind_raise. unfold airtable_get_all. rewrite bind_call.
    unfold of_result. by rewrite Hget. }
  unfold extraction_lines. destruct (is_Exception e) eqn:He.
  - erewrite bind_ok; cycle 1.
    { rewrite (try_except_raise _ _ _ _ _ Hbody), He, !bind_print. reflexivity. }
    unfold ret, printed, called. cbn [environ stdout calls warehouse].
    by rewrite <-!app_assoc.
  - erewrite bind_raise; cycle 1.
    { rewrite (try_except_raise _ _ _ _ _ Hbody), He. reflexivity. }
    unfold printed, called. cbn [environ stdout calls warehouse].
    by rewrite <-!app_assoc.
Qed.

Lemma C7_witness :
  get_all unreachable = Raise (OtherException (py "401 Unauthorized")) ∧
  run_etl unreachable sample_globals empty_world
  = (Ok tt,
     {| environ := ∅;
        stdout := extraction_lines (OtherException (py "401 Unauthorized"));
        calls := [AirtableGetAll];
        warehouse := ∅ |}).
Proof.
  split; [reflexivity|].
  exact (C7_extraction_failure_aborts unreachable sample_globals empty_world
           (OtherException (py "401 Unauthorized")) eq_refl).
Defined.

(** *** Load *)

(** One call of [load_dataframe_to_bigquery] returns normally whatever
    [Exception] the load job meets; it attempts the load, logs the outcome,
    and changes the destination table only when the job completes. *)
Lemma load_returns (sv : services) (g : globals) (w : world) (job : stats * str) :
  (∀ table_id e, start_load sv table_id = Some e → is_Exception e = true) →
  (∀ table_id e, job_result sv table_id = Some e → is_Exception e = true) →
  load_dataframe_to_bigquery sv g job.1 job.2 w = (Ok tt, after_load sv g w job) ∧
  environ (after_load sv g w job) = environ w ∧
  calls (after_load sv g w job) = calls w ++ load_calls sv g job ∧
  warehouse (after_load sv g w job) = load_effect sv g (warehouse w) job ∧
  stdout (after_load sv g w job) = stdout w ++ load_lines sv g job.
Proof.
  intros Hstart Hjob.
  unfold after_load, load_calls, load_effect, load_lines, load_failure.
  cbv [load_dataframe_to_bigquery bind try_except load_table_from_dataframe result_
       record_call called of_failure raise print printed ret environ stdout calls
       warehouse fst snd].
  specialize (Hstart (table_id_of g job.2)). specialize (Hjob (table_id_of g job.2)).
  cbv [snd] in Hstart, Hjob.
  destruct (start_load sv (table_id_of g (let (_, y) := job in y))) as [e1|].
  - rewrite (Hstart e1 eq_refl).
    destruct (is_NotFound e1); rewrite <-?app_assoc, ?app_nil_r; eauto 10.
  - destruct (job_result sv (table_id_of g (let (_, y) := job in y))) as [e2|].
    + rewrite (Hjob e2 eq_refl).
      destruct (is_NotFound e2); rewrite <-?app_assoc, ?app_nil_r; eauto 10.
    + rewrite <-?app_assoc; eauto 10.
Qed.

Ltac load_step Hrun Hstart Hjob :=
  match type of Hrun with
  | context [bind (load_dataframe_to_bigquery ?sv ?g ?df ?n) _ ?w] =>
      let E := fresh "E" in
      let Hc := fresh "Hcalls" in
      let Hw := fresh "Hwarehouse" in
      let Ho := fresh "Hstdout" in
      destruct (load_returns sv g w (df, n) Hstart Hjob) as (E & _ & Hc & Hw & Ho);
      cbn [fst snd] in E; rewrite (bind_ok _ _ _ _ _ E) in Hrun; clear E
  end.

(** C8. A failure of the load of any of the four tables ([NotFound] or any
    other [Exception]) is caught and logged with the table id and the
    detail: the call returns, the remaining loads are attempted in order,
    the tables whose load completed are replaced, the others are left as they
    were, and the run ends normally with its closing line. *)
Theorem C8_load_failures_isolated (sv : services) (g : globals) (w : world)
    (all_records : list airtable_record) (t_loc : stats) :
  get_all sv = Ok all_records →
  stats_location (fields <$> all_records) = Ok t_loc →
  (∀ table_id e, start_load sv table_id = Some e → is_Exception e = true) →
  (∀ table_id e, job_result sv table_id = Some e → is_Exception e = true) →
  let R := fields <$> all_records in
  ∃ w', run_etl sv g w = (Ok tt, w') ∧
        calls w' = calls w ++ AirtableGetAll ::
                     concat (load_calls sv g <$> load_jobs R t_loc) ∧
        warehouse w' = foldl (load_effect sv g) (warehouse w) (load_jobs R t_loc) ∧
        stdout w' = stdout w ++ progress_lines R t_loc
                      ++ concat (load_lines sv g <$> load_jobs R t_loc)
                      ++ [finished_line].
Proof.
  intros Hget Hloc Hstart Hjob.
  unfold stats_location, df_safe_of in Hloc. fold (df_raw_of all_records) in Hloc.
  remember (run_etl sv g w) as out eqn:Hrun.
  unfold run_etl in Hrun. rewrite !bind_print in Hrun.
  erewrite bind_ok in Hrun; cycle 1.
  { apply try_except_ok.
    rewrite (bind_ok _ _ _ _ _ (airtable_get_all_ok sv _ _ Hget)), bind_print.
    reflexivity. }
  cbv zeta beta iota in Hrun. rewrite !bind_print in Hrun.
  erewrite bind_ok in Hrun; [|unfold of_result; by rewrite Hloc].
  rewrite !bind_print in Hrun.
  do 4 load_step Hrun Hstart Hjob.
  unfold print in Hrun. subst out.
  eexists. split; [reflexivity|].
  rewrite calls_printed, warehouse_printed, stdout_printed.
  repeat match goal with
         | H : calls (after_load _ _ _ _) = _ |- _ => rewrite H; clear H
         | H : warehouse (after_load _ _ _ _) = _ |- _ => rewrite H; clear H
         | H : stdout (after_load _ _ _ _) = _ |- _ => rewrite H; clear H
         end.
  rewrite ?calls_printed, ?warehouse_printed, ?stdout_printed, ?calls_called,
    ?warehouse_called, ?stdout_called, ?calls_printed, ?warehouse_printed,
    ?stdout_printed.
  unfold stats_company, stats_job_title, stats_major, df_safe_of, df_raw_of, load_jobs,
    progress_lines, DataFrame.
  rewrite !length_fmap. cbn [fmap list_fmap concat].
  split; [|split].
  - by rewrite <-!app_assoc, app_nil_r.
  - done.
  - by rewrite <-!app_assoc, ?app_nil_r.
Qed.

Lemma C8_witness :
  let sv := major_not_found scenario in
  let R := fields <$> (as_fetched <$> scenario) in
  ∃ w', run_etl sv sample_globals empty_world = (Ok tt, w') ∧
        calls w' = calls empty_world ++ AirtableGetAll ::
                     concat (load_calls sv sample_globals <$> load_jobs R scenario_location) ∧
        warehouse w' = foldl (load_effect sv sample_globals) (warehouse empty_world)
                         (load_jobs R scenario_location) ∧
        stdout w' = stdout empty_world ++ progress_lines R scenario_location
                      ++ concat (load_lines sv sample_globals <$> load_jobs R scenario_location)
                      ++ [finished_line].
Proof.
  apply (C8_load_failures_isolated (major_not_found scenario) sample_globals empty_world
           (as_fetched <$> scenario) scenario_location).
  - reflexivity.
  - vm_compute; reflexivity.
  - intros table_id e H. discriminate H.
  - intros table_id e. cbn [job_result major_not_found].
    case_decide; [|discriminate]. by intros [= <-].
Defined.

(** The scenario of a missing dataset for [stats_major]: the three other
    tables are replaced, [stats_major] is not, and all four loads were
    attempted. *)
Example major_not_found_run :
  let run := run_etl (major_not_found scenario) sample_globals empty_world in
  run.1 = Ok tt ∧
  omap (λ c, match c with
             | LoadTableFromDataframe _ table_id _ => Some table_id
             | _ => None
             end) (calls run.2)
  = [py "proj.alumni.stats_company"; py "proj.alumni.stats_job_title";
     py "proj.alumni.stats_major"; py "proj.alumni.stats_location"] ∧
  warehouse run.2 !! py "proj.alumni.stats_company" = Some (stats_company scenario) ∧
  warehouse run.2 !! py "proj.alumni.stats_job_title" = Some (stats_job_title scenario) ∧
  warehouse run.2 !! py "proj.alumni.stats_major" = None ∧
  warehouse run.2 !! py "proj.alumni.stats_location" = Some scenario_location.
Proof. cbv zeta. repeat split; by_compute. Qed.

End RunFacts.

(* ===================================================================== *)
(** * Further properties of the aggregation *)
(* ===================================================================== *)

Module AggregationFacts.
Import PyStr Order OrderFacts Pandas Effects Etl Spec Samples Coverage.
Import SizeFacts FrameFacts LocationFacts PyStrFacts TransformFacts.

(** ** Tables of group sizes are determined by their counts *)

Section Unique.
Context {K : Type} (cmp : K → K → comparison) `{!StrictCmp cmp} `{!EqDecision K}.

Lemma count_key_absent (k : K) (t : list (K * nat)) :
  k ∉ fst <$> t → count_key k t = 0%nat.
Proof.
  induction t as [|[k' n] t IH]; [done|]. rewrite fmap_cons, not_elem_of_cons.
  intros [Hk Ht]. rewrite count_key_cons. simpl.
  rewrite decide_False by done. by rewrite IH.
Qed.

Lemma increasing_head_absent (k : K) (l : list K) :
  StronglySorted (λ x y, cmp x y = Lt) (k :: l) → k ∉ l.
Proof.
  intros Hs Hin. apply StronglySorted_inv in Hs as [_ Hk].
  eapply Forall_forall in Hk; [|exact Hin]. by rewrite (cmp_refl cmp) in Hk.
Qed.

Lemma increasing_below_absent (k k' : K) (l : list K) :
  cmp k k' = Lt → StronglySorted (λ x y, cmp x y = Lt) (k' :: l) → k ∉ k' :: l.
Proof.
  intros Hlt Hs. apply StronglySorted_inv in Hs as [_ Hk'].
  rewrite not_elem_of_cons. split.
  - intros ->. by rewrite (cmp_refl cmp) in Hlt.
  - intros Hin. eapply Forall_forall in Hk'; [|exact Hin].
    pose proof (cmp_trans k k' k Hlt Hk') as H. by rewrite (cmp_refl cmp) in H.
Qed.

Lemma count_key_head (k : K) (n : nat) (t : list (K * nat)) :
  StronglySorted (λ x y, cmp x y = Lt) (k :: (fst <$> t)) →
  count_key k ((k, n) :: t) = n.
Proof.
  intros Hs. rewrite count_key_cons. simpl. rewrite decide_True by done.
  rewrite count_key_absent; [lia|]. by apply increasing_head_absent.
Qed.

(** Two tables in increasing key order, without zero counts, that give every
    key the same count are the same table. *)
Lemma sorted_table_unique (t1 t2 : list (K * nat)) :
  StronglySorted (λ x y, cmp x y = Lt) (fst <$> t1) →
  StronglySorted (λ x y, cmp x y = Lt) (fst <$> t2) →
  Forall (λ g : K * nat, (1 ≤ g.2)%nat) t1 →
  Forall (λ g : K * nat, (1 ≤ g.2)%nat) t2 →
  (∀ k, count_key k t1 = count_key k t2) →
  t1 = t2.
Proof.
  revert t2. induction t1 as [|[k1 n1] t1 IH]; intros [|[k2 n2] t2] Hs1 Hs2 Hp1 Hp2 Hc.
  - done.
  - apply Forall_cons_1 in Hp2 as [Hn2 _]. specialize (Hc k2).
    rewrite fmap_cons in Hs2. rewrite (count_key_head k2 n2 t2 Hs2) in Hc.
    unfold count_key in Hc. simpl in *. lia.
  - apply Forall_cons_1 in Hp1 as [Hn1 _]. specialize (Hc k1).
    rewrite fmap_cons in Hs1. rewrite (count_key_head k1 n1 t1 Hs1) in Hc.
    unfold count_key in Hc. simpl in *. lia.
  - rewrite fmap_cons in Hs1, Hs2. simpl in Hs1, Hs2.
    apply Forall_cons_1 in Hp1 as [Hn1 Hp1]. apply Forall_cons_1 in Hp2 as [Hn2 Hp2].
    simpl in Hn1, Hn2.
    destruct (cmp k1 k2) eqn:E.
    + apply cmp_eq in E as <-.
      pose proof (Hc k1) as Hk.
      rewrite (count_key_head k1 n1 t1 Hs1), (count_key_head k1 n2 t2 Hs2) in Hk.
      subst n2. f_equal. apply IH; try done.
      * by apply StronglySorted_inv in Hs1 as [? _].
      * by apply StronglySorted_inv in Hs2 as [? _].
      * intros k. specialize (Hc k). rewrite !count_key_cons in Hc. simpl in Hc. lia.
    + exfalso. pose proof (Hc k1) as Hk.
      rewrite (count_key_head k1 n1 t1 Hs1) in Hk.
      rewrite (count_key_absent k1 ((k2, n2) :: t2)) in Hk; [lia|].
      rewrite fmap_cons. by apply increasing_below_absent.
    + exfalso. pose proof (Hc k2) as Hk.
      rewrite (count_key_head k2 n2 t2 Hs2) in Hk.
      rewrite (count_key_absent k2 ((k1, n1) :: t1)) in Hk; [lia|].
      rewrite fmap_cons. apply increasing_below_absent; [|done].
      by rewrite (cmp_opp k1 k2), E.
Qed.

(** The group sizes do not depend on the order of the keys. *)
Lemma size_table_Permutation (keys keys' : list K) :
  keys ≡ₚ keys' → size_table cmp keys = size_table cmp keys'.
Proof.
  intros Hp. apply sorted_table_unique.
  - by apply size_table_increasing.
  - by apply size_table_increasing.
  - apply size_table_positive.
  - apply size_table_positive.
  - intros k. rewrite !(count_key_size_table cmp) by done. by rewrite Hp.
Qed.

End Unique.

(** ** The tables, spelled out *)

Lemma key_of_keys (d : dimension) (R : records) :
  d ≠ Location →
  omap (group_key [source_field d]) (dropna [source_field d] (df_safe_of R))
  = omap (key_of d) R.
Proof.
  intros Hd. rewrite single_keys by apply source_field_safe.
  apply list_omap_ext, Forall2_same_length_lookup_2; [done|].
  intros i x y Hx Hy. assert (x = y) as -> by congruence.
  by rewrite key_of_single.
Qed.

(** The three one-column tables: their columns, and the group sizes of
    the keys of their dimension. *)
Lemma table_of_single (d : dimension) (R : records) :
  d ≠ Location →
  table_of d R
  = Ok {| key_columns := (output_columns d).1; count_column := (output_columns d).2;
          groups := size_table key_compare (omap (key_of d) R) |}.
Proof.
  intros Hd. pose proof (key_of_keys d R Hd) as Hk.
  destruct d; try done; cbn [table_of source_field] in *; f_equal;
    unfold stats_company, stats_company_of, stats_job_title, stats_jobs_of,
      stats_major, stats_major_of, rename, reset_index, groupby_size;
    cbn [key_columns count_column groups]; rewrite Hk; f_equal.
Qed.

Lemma size_table_nil {K : Type} (cmp : K → K → comparison) (keys : list K) :
  size_table cmp keys = [] → keys = [].
Proof.
  intros H. pose proof (sum_size_table cmp keys) as Hs. rewrite H in Hs.
  destruct keys; [done|]. simpl in Hs. lia.
Qed.

(** An aggregate depends on the record set through the group sizes of its
    own keys only. *)
Lemma table_of_sizes (d : dimension) (R R' : records) :
  size_table key_compare (omap (key_of d) R) = size_table key_compare (omap (key_of d) R') →
  table_of d R = table_of d R'.
Proof.
  intros Hs. destruct (decide (omap (key_of d) R = [])) as [HR|HR].
  - apply table_of_ext. rewrite HR in *. symmetry.
    by apply (size_table_nil key_compare).
  - destruct d; try (by rewrite !table_of_single, Hs by done).
    change (omap location_key R ≠ []) in HR.
    change (size_table key_compare (omap location_key R)
            = size_table key_compare (omap location_key R')) in Hs.
    cbn [table_of]. rewrite !stats_location_spec.
    assert (omap location_key R' ≠ []) as HR'.
    { intros HR'. rewrite HR' in Hs. by apply (size_table_nil key_compare) in Hs. }
    apply parseable_keys in HR, HR'. rewrite !decide_True by done. by rewrite Hs.
Qed.

Lemma field_insert_ne (name c : str) (v : cell) (r : gmap str cell) :
  name ≠ c → field c (<[name := v]> r) = field c r.
Proof. intros Hne. unfold field. by rewrite lookup_insert_ne. Qed.


(** The key of a record in a dimension is read from the source field of
    that dimension. *)
Lemma key_of_field (d : dimension) (r r' : gmap str cell) :
  field (source_field d) r = field (source_field d) r' → key_of d r = key_of d r'.
Proof.
  intros H. destruct d; cbn [key_of source_field] in *; unfold location_key;
    by rewrite H.
Qed.

Lemma source_field_listed (d : dimension) : source_field d ∈ source_fields.
Proof. destruct d; unfold source_fields; cbn [source_field]; set_solver. Qed.

Lemma table_of_replace (d : dimension) (R1 R2 : records) (r r' : gmap str cell) :
  key_of d r = key_of d r' →
  table_of d (R1 ++ r :: R2) = table_of d (R1 ++ r' :: R2).
Proof. intros H. apply table_of_ext. by rewrite !omap_app, !omap_cons, H. Qed.

(** ** Properties *)

(** X1. Each aggregate that is produced gives every key the number of
    records that hold that key in the aggregate's dimension (the exact,
    untrimmed field value for company, title and major; country, stripped
    state and stripped city for location); a key that no record holds has
    count 0. *)
Theorem X1_counts_are_frequencies (d : dimension) (R : records) (t : stats)
    (k : list str) :
  table_of d R = Ok t → count_key k (groups t) = occurrences d k R.
Proof. apply count_key_table_of. Qed.

Lemma X1_witness :
  table_of Location scenario = Ok scenario_location ∧
  count_key [py "United States"; py "TX"; py "Austin"] (groups scenario_location)
  = occurrences Location [py "United States"; py "TX"; py "Austin"] scenario.
Proof.
  split; [by_compute|].
  apply (X1_counts_are_frequencies Location scenario scenario_location). by_compute.
Defined.

(** X2. The rows of each aggregate come in strictly increasing order of
    their keys, compared as Python compares strings and tuples of strings. *)
Theorem X2_rows_in_key_order (d : dimension) (R : records) (t : stats) :
  table_of d R = Ok t →
  StronglySorted (λ x y, key_compare x y = Lt) (fst <$> groups t).
Proof.
  intros Ht. rewrite (groups_table_of d R t Ht). apply size_table_increasing, _.
Qed.

Lemma X2_witness :
  table_of Location scenario = Ok scenario_location ∧
  StronglySorted (λ x y, key_compare x y = Lt) (fst <$> groups scenario_location).
Proof.
  split; [by_compute|].
  apply (X2_rows_in_key_order Location scenario scenario_location). by_compute.
Defined.

(** X3. The order of the records does not matter: a permutation of the
    record set gives the same four aggregates (and the location step raises
    for the one exactly when it raises for the other). *)
Theorem X3_record_order_is_irrelevant (d : dimension) (R R' : records) :
  R ≡ₚ R' → table_of d R = table_of d R'.
Proof.
  intros Hp. apply table_of_sizes, (size_table_Permutation key_compare).
  by rewrite Hp.
Qed.

Lemma X3_witness :
  [austin; dallas; anonymous] ≡ₚ [anonymous; austin; dallas] ∧
  table_of Location [austin; dallas; anonymous]
  = table_of Location [anonymous; austin; dallas].
Proof.
  assert ([austin; dallas; anonymous] ≡ₚ [anonymous; austin; dallas]) as Hp.
  { symmetry. apply (Permutation_cons_append [austin; dallas] anonymous). }
  split; [exact Hp|]. exact (X3_record_order_is_irrelevant Location _ _ Hp).
Defined.

(** X4. Fields other than the four source fields are ignored: setting any
    other field of a record ([Graduation Year], or one the job does not know)
    to any value leaves the four aggregates as they are. *)
Theorem X4_other_fields_are_ignored (d : dimension) (R1 R2 : records)
    (r : gmap str cell) (name : str) (v : cell) :
  name ∉ source_fields →
  table_of d (R1 ++ <[name := v]> r :: R2) = table_of d (R1 ++ r :: R2).
Proof.
  intros Hn. apply table_of_replace, key_of_field, field_insert_ne.
  intros ->. apply Hn, source_field_listed.
Qed.

Lemma X4_witness :
  (py "Graduation Year" ∉ source_fields) ∧
  table_of Company ([austin] ++ <[py "Graduation Year" := Some (py "2019")]> dallas :: [])
  = table_of Company ([austin] ++ dallas :: []).
Proof.
  split; [decide_it|].
  apply (X4_other_fields_are_ignored Company [austin] [] dallas). decide_it.
Defined.


(** X6. Each aggregate that is produced has the columns that the warehouse
    table is to have: [company_name], [alumni_count]; [job_title],
    [job_count]; [major], [major_count]; [country], [state], [city],
    [alumni_count]. *)
Theorem X6_output_columns (d : dimension) (R : records) (t : stats) :
  table_of d R = Ok t →
  key_columns t = (output_columns d).1 ∧ count_column t = (output_columns d).2.
Proof.
  destruct d; try (rewrite table_of_single by done; by intros [= <-]).
  cbn [table_of]. rewrite stats_location_spec. case_decide; [|done]. by intros [= <-].
Qed.

Lemma X6_witness :
  table_of Major scenario = Ok (stats_major scenario) ∧
  key_columns (stats_major scenario) = (output_columns Major).1 ∧
  count_column (stats_major scenario) = (output_columns Major).2.
Proof.
  split; [reflexivity|]. exact (X6_output_columns Major scenario _ eq_refl).
Defined.

(** ** The location aggregate *)

Lemma blank_rev (w : str) : blank w → blank (rev w).
Proof.
  unfold blank. rewrite !Forall_forall. intros Hw c Hc. apply Hw.
  by rewrite list_elem_of_In, in_rev, <-list_elem_of_In.
Qed.

Lemma rstrip_blank_app (s w : str) : blank w → rstrip (s ++ w) = rstrip s.
Proof.
  intros Hw. unfold rstrip. rewrite rev_app_distr.
  by rewrite lstrip_blank_app by by apply blank_rev.
Qed.

Lemma blank_no_comma (w : str) : blank w → comma ∉ w.
Proof.
  unfold blank. rewrite Forall_forall. intros Hw Hin. by apply Hw in Hin.
Qed.

(** Whitespace around a stripped string is what [strip] removes. *)
Lemma strip_surround (w1 t w2 : str) :
  blank w1 → blank w2 → strip t = t → strip (w1 ++ t ++ w2) = t.
Proof.
  intros Hw1 Hw2 Ht. rewrite strip_blank_app by done.
  assert (lstrip t = t) as Hl by (rewrite <-Ht; apply lstrip_strip).
  assert (rstrip t = t) as Hr by (rewrite <-Ht; apply rstrip_strip).
  unfold strip. destruct t as [|c t'].
  - simpl. rewrite <-(app_nil_r w2). by rewrite lstrip_blank_app.
  - pose proof (lstrip_head (c :: t')) as Hc. rewrite Hl in Hc.
    change ((c :: t') ++ w2) with (c :: (t' ++ w2)).
    rewrite lstrip_cons_nonspace by done.
    change (c :: (t' ++ w2)) with ((c :: t') ++ w2).
    by rewrite rstrip_blank_app.
Qed.

(** The cells that lines 140-145 give a record whose location has a comma. *)
Lemma splits_to_partition (R1 R2 : records) (r : gmap str cell) (s pre post : str) :
  field (py "Location") r = Some s → partition comma s = (pre, Some post) →
  splits_to R1 r R2 (Some (strip pre)) (Some (strip post)).
Proof.
  intros Hr Hp. unfold splits_to.
  assert (Exists parseable (R1 ++ r :: R2)) as Hex.
  { apply Exists_app. right. apply Exists_cons. left.
    unfold parseable, location_key. rewrite Hr, Hp. eauto. }
  destruct (width_parseable (R1 ++ r :: R2)) as [_ Hw]. apply Hw in Hex.
  unfold width in Hex. pose proof (df_location_rows _ Hex) as Hdf.
  destruct (df_location_lookup R1 R2 r s _ Hr Hdf) as (row & Hrow & Hcity & Hstate & _).
  rewrite Hp in Hcity, Hstate. eauto 10.
Qed.

Lemma location_key_shape (r : gmap str cell) (k : list str) :
  location_key r = Some k →
  ∃ state city, k = [py "United States"; state; city] ∧
                strip state = state ∧ strip city = city ∧ comma ∉ city.
Proof.
  unfold location_key. destruct (field _ r) as [s|]; [|done].
  destruct (partition comma s) as [pre [post|]] eqn:E; [|done]. intros [= <-].
  apply partition_Some in E as [_ Hpre].
  exists (strip post), (strip pre). rewrite !strip_idemp. repeat split; try done.
  intros Hin. by apply Hpre, elem_of_strip.
Qed.

(** X7. Whenever some record has a [Location] with a comma, the location
    table is produced, its counts sum to the number of records whose
    [Location] is non-null and has a comma, and every row has the country
    [United States]. *)
Theorem X7_location_counts (R : records) :
  Exists parseable R →
  ∃ t, stats_location R = Ok t ∧ total t = count_parseable R ∧
       all_in_country t (py "United States").
Proof. apply stats_location_law. Qed.

Lemma X7_witness :
  Exists parseable [austin; remote] ∧
  ∃ t, stats_location [austin; remote] = Ok t ∧ total t = count_parseable [austin; remote] ∧
       all_in_country t (py "United States").
Proof.
  assert (Exists parseable [austin; remote]) as H.
  { apply Exists_cons_hd. unfold parseable. eexists. by_compute. }
  split; [exact H|]. exact (X7_location_counts [austin; remote] H).
Defined.

(** X8. Locations that differ only by whitespace next to the city and the
    state fall in one group: a location that is a stripped city without a
    comma, a comma and a stripped state, with any whitespace around the two
    parts, gets exactly that city and state, and the key (United States,
    state, city). *)
Theorem X8_whitespace_variants_share_a_group (R1 R2 : records) (r : gmap str cell)
    (s city state : str) :
  field (py "Location") r = Some s →
  same_up_to_whitespace s city state →
  strip city = city → strip state = state → comma ∉ city →
  splits_to R1 r R2 (Some city) (Some state) ∧
  key_of Location r = Some [py "United States"; state; city].
Proof.
  intros Hr (w1 & w2 & w3 & w4 & Hw1 & Hw2 & Hw3 & Hw4 & ->) Hcity Hstate Hcomma.
  assert (partition comma (w1 ++ city ++ w2 ++ comma :: w3 ++ state ++ w4)
          = (w1 ++ city ++ w2, Some (w3 ++ state ++ w4))) as Hp.
  { replace (w1 ++ city ++ w2 ++ comma :: w3 ++ state ++ w4)
      with ((w1 ++ city ++ w2) ++ comma :: w3 ++ state ++ w4)
      by (by rewrite <-!app_assoc).
    apply partition_app. rewrite !not_elem_of_app.
    split; [by apply blank_no_comma|]. split; [done|by apply blank_no_comma]. }
  pose proof (splits_to_partition R1 R2 r _ _ _ Hr Hp) as Hsplit.
  rewrite !strip_surround in Hsplit by done. split; [done|].
  cbn [key_of]. unfold location_key. by rewrite Hr, Hp, !strip_surround.
Qed.

Lemma X8_witness :
  let s := py "  Austin ,TX " in
  let r : gmap str cell := {[ py "Location" := Some s ]} in
  field (py "Location") r = Some s ∧
  same_up_to_whitespace s (py "Austin") (py "TX") ∧
  strip (py "Austin") = py "Austin" ∧ strip (py "TX") = py "TX" ∧
  (comma ∉ py "Austin") ∧
  splits_to [austin] r [] (Some (py "Austin")) (Some (py "TX")) ∧
  key_of Location r = Some [py "United States"; py "TX"; py "Austin"].
Proof.
  cbv zeta.
  assert (same_up_to_whitespace (py "  Austin ,TX ") (py "Austin") (py "TX")) as Hs.
  { exists (py "  "), (py " "), [], (py " ").
    repeat (split; [by repeat constructor|]). by_compute. }
  split; [by_compute|]. split; [exact Hs|]. split; [by_compute|].
  split; [by_compute|]. split; [decide_it|].
  apply (X8_whitespace_variants_share_a_group [austin] []
           {[ py "Location" := Some (py "  Austin ,TX ") ]}
           (py "  Austin ,TX ") (py "Austin") (py "TX"));
    [by_compute|exact Hs|by_compute|by_compute|decide_it].
Defined.

(** X9. Every row of the location table has a key of three strings: the
    country [United States], a state and a city that neither start nor end
    with whitespace, the city without a comma. *)
Theorem X9_location_keys_are_normalised (R : records) (t : stats) :
  stats_location R = Ok t →
  Forall (λ g : list str * nat,
            ∃ state city, g.1 = [py "United States"; state; city] ∧
                          strip state = state ∧ strip city = city ∧ comma ∉ city)
         (groups t).
Proof.
  intros Ht. rewrite (groups_location R t Ht). apply Forall_forall. intros [k n] Hk.
  assert (k ∈ omap location_key R) as Hin.
  { apply (size_table_keys key_compare). apply list_elem_of_fmap. by exists (k, n). }
  apply list_elem_of_omap in Hin as (r & _ & Hr). by apply (location_key_shape r).
Qed.

Lemma X9_witness :
  stats_location scenario = Ok scenario_location ∧
  Forall (λ g : list str * nat,
            ∃ state city, g.1 = [py "United States"; state; city] ∧
                          strip state = state ∧ strip city = city ∧ comma ∉ city)
         (groups scenario_location).
Proof.
  split; [by_compute|]. apply (X9_location_keys_are_normalised scenario). by_compute.
Defined.

End AggregationFacts.

(* ===================================================================== *)
(** * Further properties of the run *)
(* ===================================================================== *)

Module RunCoverage.
Import PyStr Order OrderFacts Pandas Effects Etl Spec Samples Coverage.
Import SizeFacts FrameFacts LocationFacts PyStrFacts TransformFacts RunFacts.
Local Open Scope etl_scope.

(** ** One load *)

(** What one call of [load_dataframe_to_bigquery] does, by the outcome of
    the load job of its table. *)
Lemma load_eval (sv : services) (g : globals) (w : world) (job : stats * str) :
  load_dataframe_to_bigquery sv g job.1 job.2 w
  = (match load_failure sv (table_id_of g job.2) with
     | Some e => if is_Exception e then Ok tt else Raise e
     | None => Ok tt
     end,
     {| environ := environ w;
        stdout := stdout w ++
          match load_failure sv (table_id_of g job.2) with
          | Some e => if is_Exception e then load_lines sv g job
                      else take 1 (load_lines sv g job)
          | None => load_lines sv g job
          end;
        calls := calls w ++ load_calls sv g job;
        warehouse := load_effect sv g (warehouse w) job |}).
Proof.
  unfold load_calls, load_effect, load_lines, load_failure.
  cbv [load_dataframe_to_bigquery bind try_except load_table_from_dataframe result_
       record_call called of_failure raise print printed ret environ stdout calls
       warehouse fst snd].
  destruct (start_load sv (table_id_of g (let (_, y) := job in y))) as [e1|].
  - destruct e1; cbn [is_NotFound is_Exception take]; by rewrite <-?app_assoc, ?app_nil_r.
  - destruct (job_result sv (table_id_of g (let (_, y) := job in y))) as [e2|].
    + destruct e2; cbn [is_NotFound is_Exception take];
        by rewrite <-?app_assoc, ?app_nil_r.
    + by rewrite <-?app_assoc.
Qed.

Lemma table_id_of_inj (g : globals) (n1 n2 : str) :
  table_id_of g n1 = table_id_of g n2 → n1 = n2.
Proof. unfold table_id_of. intros H. by repeat (apply app_inv_head in H). Qed.

Lemma load_effect_lookup_ne (sv : services) (g : globals) (wh : gmap str stats)
    (job : stats * str) (table_id : str) :
  table_id ≠ table_id_of g job.2 → load_effect sv g wh job !! table_id = wh !! table_id.
Proof.
  intros Hne. unfold load_effect. destruct (load_failure sv _); [done|].
  by rewrite lookup_insert_ne.
Qed.

Lemma load_effect_lookup_eq (sv : services) (g : globals) (wh : gmap str stats)
    (job : stats * str) :
  load_effect sv g wh job !! table_id_of g job.2
  = match load_failure sv (table_id_of g job.2) with
    | None => Some job.1
    | Some _ => wh !! table_id_of g job.2
    end.
Proof.
  unfold load_effect. destruct (load_failure sv _); [done|].
  by rewrite lookup_insert_eq.
Qed.

Lemma loads_lookup_other (sv : services) (g : globals) (jobs : list (stats * str))
    (wh : gmap str stats) (table_id : str) :
  table_id ∉ table_ids g jobs →
  foldl (load_effect sv g) wh jobs !! table_id = wh !! table_id.
Proof.
  revert wh. induction jobs as [|job jobs IH]; intros wh Hid; [done|].
  unfold table_ids in Hid. rewrite fmap_cons, not_elem_of_cons in Hid.
  destruct Hid as [Hne Hid]. simpl. rewrite IH by done.
  by apply load_effect_lookup_ne.
Qed.

Lemma loads_lookup_job (sv : services) (g : globals) (jobs : list (stats * str))
    (wh : gmap str stats) (job : stats * str) :
  NoDup (table_ids g jobs) → job ∈ jobs →
  foldl (load_effect sv g) wh jobs !! table_id_of g job.2
  = match load_failure sv (table_id_of g job.2) with
    | None => Some job.1
    | Some _ => wh !! table_id_of g job.2
    end.
Proof.
  revert wh. induction jobs as [|j jobs IH]; intros wh Hnd Hin.
  - by apply elem_of_nil in Hin.
  - unfold table_ids in Hnd. rewrite fmap_cons in Hnd.
    apply NoDup_cons in Hnd as [Hj Hnd]. simpl.
    apply elem_of_cons in Hin as [->|Hin].
    + rewrite loads_lookup_other by done. apply load_effect_lookup_eq.
    + rewrite IH by done. destruct (load_failure sv _); [|done].
      apply load_effect_lookup_ne. intros Heq. apply Hj. rewrite <-Heq.
      apply list_elem_of_fmap. by exists job.
Qed.

Lemma load_jobs_NoDup (g : globals) (R : records) (t : stats) :
  NoDup (table_ids g (load_jobs R t)).
Proof.
  unfold table_ids, load_jobs. cbn [fmap list_fmap snd].
  change (NoDup (table_id_of g <$> [py "stats_company"; py "stats_job_title";
                                    py "stats_major"; py "stats_location"])).
  apply NoDup_fmap_2.
  - intros n1 n2. apply table_id_of_inj.
  - decide_it.
Qed.


(** ** The run after a successful fetch *)

Lemma environ_printed (line : str) (w : world) : environ (printed line w) = environ w.
Proof. done. Qed.

Lemma environ_called (c : call) (w : world) : environ (called c w) = environ w.
Proof. done. Qed.

(** The run up to the location step. *)
Lemma run_to_location (sv : services) (g : globals) (w : world)
    (all_records : list airtable_record) :
  get_all sv = Ok all_records →
  ∃ w0 k,
    run_etl sv g w
    = bind (of_result (stats_location (fields <$> all_records))) k w0 ∧
    environ w0 = environ w ∧ calls w0 = calls w ++ [AirtableGetAll] ∧
    warehouse w0 = warehouse w ∧
    stdout w0 = stdout w ++ lines_before_location (fields <$> all_records).
Proof.
  intros Hget. unfold run_etl. rewrite !bind_print.
  erewrite bind_ok; cycle 1.
  { apply try_except_ok.
    rewrite (bind_ok _ _ _ _ _ (airtable_get_all_ok sv _ _ Hget)), bind_print.
    reflexivity. }
  cbv zeta beta iota. rewrite !bind_print.
  eexists _, _. split; [reflexivity|].
  rewrite ?environ_printed, ?calls_printed, ?warehouse_printed, ?stdout_printed,
    ?environ_called, ?calls_called, ?warehouse_called, ?stdout_called,
    ?environ_printed, ?calls_printed, ?warehouse_printed, ?stdout_printed.
  repeat split; try done.
  unfold lines_before_location, stats_company, stats_job_title, stats_major,
    df_safe_of, df_raw_of, DataFrame.
  rewrite !length_fmap. by rewrite <-!app_assoc.
Qed.

(** The run after a successful fetch and transform: the four loads, each
    caught, and the closing line. *)
Lemma run_etl_loads (sv : services) (g : globals) (w : world)
    (all_records : list airtable_record) (t_loc : stats) :
  get_all sv = Ok all_records →
  stats_location (fields <$> all_records) = Ok t_loc →
  (∀ table_id e, start_load sv table_id = Some e → is_Exception e = true) →
  (∀ table_id e, job_result sv table_id = Some e → is_Exception e = true) →
  ∃ w', run_etl sv g w = (Ok tt, w') ∧
        environ w' = environ w ∧
        calls w' = calls w ++ AirtableGetAll ::
                     concat (load_calls sv g <$> load_jobs (fields <$> all_records) t_loc) ∧
        warehouse w' = foldl (load_effect sv g) (warehouse w)
                         (load_jobs (fields <$> all_records) t_loc).
Proof.
  intros Hget Hloc Hstart Hjob.
  unfold stats_location, df_safe_of in Hloc. fold (df_raw_of all_records) in Hloc.
  remember (run_etl sv g w) as out eqn:Hrun.
  unfold run_etl in Hrun. rewrite !bind_print in Hrun.
  erewrite bind_ok in Hrun; cycle 1.
  { apply try_except_ok.
    rewrite (bind_ok _ _ _ _ _ (airtable_get_all_ok sv _ _ Hget)), bind_print.
    reflexivity. }
  cbv zeta beta iota in Hrun. rewrite !bind_print in Hrun.
  erewrite bind_ok in Hrun; [|unfold of_result; by rewrite Hloc].
  rewrite !bind_print in Hrun.
  repeat match type of Hrun with
  | context [bind (load_dataframe_to_bigquery ?sv ?g ?df ?n) _ ?w] =>
      let E := fresh "E" in
      let He := fresh "Henviron" in
      let Hc := fresh "Hcalls" in
      let Hw := fresh "Hwarehouse" in
      destruct (load_returns sv g w (df, n) Hstart Hjob) as (E & He & Hc & Hw & _);
      cbn [fst snd] in E; rewrite (bind_ok _ _ _ _ _ E) in Hrun; clear E
  end.
  unfold print in Hrun. subst out.
  eexists. split; [reflexivity|].
  rewrite environ_printed, calls_printed, warehouse_printed.
  repeat match goal with
         | H : environ (after_load _ _ _ _) = _ |- _ => rewrite H; clear H
         | H : calls (after_load _ _ _ _) = _ |- _ => rewrite H; clear H
         | H : warehouse (after_load _ _ _ _) = _ |- _ => rewrite H; clear H
         end.
  rewrite ?environ_printed, ?calls_printed, ?warehouse_printed, ?environ_called,
    ?calls_called, ?warehouse_called, ?environ_printed, ?calls_printed,
    ?warehouse_printed.
  split; [done|].
  unfold stats_company, stats_job_title, stats_major, df_safe_of, df_raw_of, load_jobs.
  cbn [fmap list_fmap concat]. split; [|done].
  by rewrite <-!app_assoc, app_nil_r.
Qed.

(** ** The set-up with a full configuration *)

(** With the five values truthy the set-up constructs the clients, the
    Airtable client first; it returns the configuration when both are
    constructed, and ends the process after an [Exception] of either. *)
Lemma setup_configured (sv : services) (w : world) :
  configured (environ w ∪ dotenv sv) →
  match init_failure sv with
  | Some e => is_Exception e = true
  | None => True
  end →
  setup sv w
  = (match init_failure sv with
     | Some _ => Raise SystemExit
     | None => Ok (config_of (environ w ∪ dotenv sv))
     end,
     after_init sv w).
Proof.
  unfold configured, config_of, config_values, after_init, init_lines, init_calls,
    init_failure, airtable_client.
  cbn [AIRTABLE_BASE_ID AIRTABLE_TABLE_NAME AIRTABLE_API_KEY GCP_PROJECT_ID
       BIGQUERY_DATASET_ID].
  intros Hall Hexc.
  unfold setup, Airtable, Client, exit.
  unfold bind, try_except, print, printed, load_dotenv, getenv, config_values,
    record_call, called, of_failure, raise, ret.
  cbn [environ stdout calls warehouse AIRTABLE_BASE_ID AIRTABLE_TABLE_NAME
       AIRTABLE_API_KEY GCP_PROJECT_ID BIGQUERY_DATASET_ID].
  rewrite Hall. cbn [negb].
  destruct (airtable_init sv) as [e1|].
  - cbn [environ stdout calls warehouse]. rewrite Hexc.
    cbn [environ stdout calls warehouse]. by rewrite <-?app_assoc.
  - destruct (client_init sv) as [e2|].
    + cbn [environ stdout calls warehouse]. rewrite Hexc.
      cbn [environ stdout calls warehouse]. by rewrite <-?app_assoc.
    + cbn [environ stdout calls warehouse]. by rewrite <-?app_assoc.
Qed.

(** ** Properties *)

(** X10. A load whose job completes replaces the destination table
    [project.dataset.table_name] by the rows given, whatever it held, and
    leaves every other table as it was; the job is started with
    [WRITE_TRUNCATE] and awaited, and two lines are printed. *)
Theorem X10_completed_load_replaces_table (sv : services) (g : globals) (w : world)
    (dataframe : stats) (table_name : str) :
  load_failure sv (table_id_of g table_name) = None →
  load_dataframe_to_bigquery sv g dataframe table_name w
  = (Ok tt,
     {| environ := environ w;
        stdout := stdout w ++
          [py "  Loading " ++ str_of_nat (len dataframe) ++ py " rows into "
             ++ table_id_of g table_name ++ py "...";
           py "  " ++ check_mark :: py " SUCCESS: Load complete for "
             ++ table_id_of g table_name];
        calls := calls w ++
          [LoadTableFromDataframe dataframe (table_id_of g table_name) WRITE_TRUNCATE;
           JobResult (table_id_of g table_name)];
        warehouse := <[table_id_of g table_name := dataframe]> (warehouse w) |}).
Proof.
  intros Hok. pose proof (load_eval sv g w (dataframe, table_name)) as Hrun.
  cbn [fst snd] in Hrun. rewrite Hrun.
  unfold load_lines, load_calls, load_effect. cbn [fst snd]. rewrite Hok.
  unfold load_failure in Hok. by destruct (start_load sv _).
Qed.

Lemma X10_witness :
  load_failure (healthy scenario) (table_id_of sample_globals (py "stats_major")) = None ∧
  warehouse (load_dataframe_to_bigquery (healthy scenario) sample_globals
               (stats_major scenario) (py "stats_major") configured_world).2
  = <[py "proj.alumni.stats_major" := stats_major scenario]> (warehouse configured_world).
Proof.
  split; [reflexivity|].
  rewrite (X10_completed_load_replaces_table (healthy scenario) sample_globals
             configured_world (stats_major scenario) (py "stats_major") eq_refl).
  reflexivity.
Defined.

(** X11. A load whose job raises an [Exception], when it is started or
    when it is awaited, changes no table; the call returns normally after
    printing the table id and the text of the exception (with the hint about
    the dataset for [NotFound]); a job that could not be started is not
    awaited. *)
Theorem X11_failed_load_changes_nothing (sv : services) (g : globals) (w : world)
    (dataframe : stats) (table_name : str) (e : exn) :
  load_failure sv (table_id_of g table_name) = Some e →
  is_Exception e = true →
  load_dataframe_to_bigquery sv g dataframe table_name w
  = (Ok tt,
     {| environ := environ w;
        stdout := stdout w ++
          [py "  Loading " ++ str_of_nat (len dataframe) ++ py " rows into "
             ++ table_id_of g table_name ++ py "...";
           py "  " ++ cross_mark :: py " ERROR: " ++ table_id_of g table_name
             ++ py " failed to load."
             ++ (if is_NotFound e
                 then py " The dataset '" ++ fmt (BIGQUERY_DATASET_ID g)
                        ++ py "' might not exist."
                 else []);
           py "  " ++ corner ++ py " Details: " ++ exn_str e];
        calls := calls w ++
          LoadTableFromDataframe dataframe (table_id_of g table_name) WRITE_TRUNCATE ::
          match start_load sv (table_id_of g table_name) with
          | Some _ => []
          | None => [JobResult (table_id_of g table_name)]
          end;
        warehouse := warehouse w |}).
Proof.
  intros Hfail Hexc. pose proof (load_eval sv g w (dataframe, table_name)) as Hrun.
  cbn [fst snd] in Hrun. rewrite Hrun.
  unfold load_lines, load_calls, load_effect. cbn [fst snd]. rewrite Hfail, Hexc.
  by destruct (start_load sv _).
Qed.

Lemma X11_witness :
  let sv := major_not_found scenario in
  load_failure sv (table_id_of sample_globals (py "stats_major"))
  = Some (NotFound (py "404 Not found: Dataset proj:alumni")) ∧
  is_Exception (NotFound (py "404 Not found: Dataset proj:alumni")) = true ∧
  (load_dataframe_to_bigquery sv sample_globals (stats_major scenario)
     (py "stats_major") configured_world).1 = Ok tt ∧
  warehouse (load_dataframe_to_bigquery sv sample_globals (stats_major scenario)
               (py "stats_major") configured_world).2
  = warehouse configured_world.
Proof.
  cbv zeta. split; [by_compute|]. split; [reflexivity|].
  rewrite (X11_failed_load_changes_nothing (major_not_found scenario) sample_globals
             configured_world (stats_major scenario) (py "stats_major")
             (NotFound (py "404 Not found: Dataset proj:alumni")));
    [split; reflexivity|by_compute|reflexivity].
Defined.

(** X12. When the fetch succeeds and no record has a [Location] with a
    comma (an empty table, or locations without a state), the run ends with
    the exception of the location step: the company, job title and major
    aggregates were computed and reported, nothing is loaded and the
    warehouse is as it was. *)
Theorem X12_run_stops_without_parseable_location (sv : services) (g : globals)
    (w : world) (all_records : list airtable_record) :
  get_all sv = Ok all_records →
  ¬ Exists parseable (fields <$> all_records) →
  run_etl sv g w
  = (Raise PandasError,
     {| environ := environ w;
        stdout := stdout w ++ lines_before_location (fields <$> all_records);
        calls := calls w ++ [AirtableGetAll];
        warehouse := warehouse w |}).
Proof.
  intros Hget Hnone.
  destruct (run_to_location sv g w all_records Hget)
    as (w0 & k & -> & Henv & Hcalls & Hwh & Hout).
  rewrite (bind_raise _ _ w0 w0 PandasError).
  - f_equal. destruct w0. cbn [environ stdout calls warehouse] in *. by subst.
  - unfold of_result. by rewrite stats_location_Raise.
Qed.

Lemma X12_witness :
  get_all (healthy []) = Ok [] ∧ ¬ Exists parseable (fields <$> []) ∧
  run_etl (healthy []) sample_globals configured_world
  = (Raise PandasError,
     {| environ := environ configured_world;
        stdout := stdout configured_world ++ lines_before_location (fields <$> []);
        calls := calls configured_world ++ [AirtableGetAll];
        warehouse := warehouse configured_world |}).
Proof.
  assert (¬ Exists parseable (fields <$> [])) as H by decide_it.
  split; [reflexivity|]. split; [exact H|].
  exact (X12_run_stops_without_parseable_location (healthy []) sample_globals
           configured_world [] eq_refl H).
Defined.

(** X13. With the five configuration values truthy and both clients
    constructed, the set-up returns the five values read from the
    environment, has constructed the Airtable client from base id, table
    name and key and then the BigQuery client, and has made no other
    interaction. *)
Theorem X13_setup_constructs_the_clients (sv : services) (w : world) :
  configured (environ w ∪ dotenv sv) →
  airtable_init sv = None → client_init sv = None →
  setup sv w
  = (Ok (config_of (environ w ∪ dotenv sv)),
     {| environ := environ w ∪ dotenv sv;
        stdout := stdout w ++
          [py "Loading environment variables..."; py "Connecting to Airtable...";
           py "Connecting to BigQuery..."; py "Connections initialized."];
        calls := calls w ++ [airtable_client (environ w ∪ dotenv sv); BigQueryClient];
        warehouse := warehouse w |}).
Proof.
  intros Hconf Ha Hc. rewrite setup_configured; unfold init_failure; rewrite ?Ha, ?Hc;
    try done.
  unfold after_init, init_lines, init_calls, init_failure. by rewrite Ha, Hc.
Qed.

Lemma X13_witness :
  configured (environ configured_world ∪ dotenv (healthy scenario)) ∧
  (setup (healthy scenario) configured_world).1 = Ok sample_globals ∧
  calls (setup (healthy scenario) configured_world).2
  = [AirtableInit (Some (py "app1")) (Some (py "Alumni")) (Some (py "key1"));
     BigQueryClient].
Proof.
  assert (configured (environ configured_world ∪ dotenv (healthy scenario))) as H
    by by_compute.
  split; [exact H|].
  rewrite (X13_setup_constructs_the_clients (healthy scenario) configured_world H
             eq_refl eq_refl).
  split; by_compute.
Defined.

(** X14. With the five configuration values truthy, an [Exception] of the
    construction of a client ends the process: its text is printed and
    [exit()] is called; the BigQuery client is constructed only after the
    Airtable client was, and no record is fetched and no table loaded. *)
Theorem X14_client_failure_ends_the_process (sv : services) (w : world) (e : exn) :
  configured (environ w ∪ dotenv sv) →
  init_failure sv = Some e → is_Exception e = true →
  main sv w
  = (Raise SystemExit,
     {| environ := environ w ∪ dotenv sv;
        stdout := stdout w ++
          [py "Loading environment variables..."; py "Connecting to Airtable..."]
          ++ match airtable_init sv with
             | None => [py "Connecting to BigQuery..."]
             | Some _ => []
             end
          ++ [cross_mark :: py " ERROR: Failed to initialize clients. " ++ exn_str e];
        calls := calls w ++ airtable_client (environ w ∪ dotenv sv) ::
          match airtable_init sv with
          | None => [BigQueryClient]
          | Some _ => []
          end;
        warehouse := warehouse w |}).
Proof.
  intros Hconf Hfail Hexc. unfold main. erewrite bind_raise; [reflexivity|].
  rewrite setup_configured by (by rewrite ?Hfail).
  unfold after_init, init_lines, init_calls. by rewrite Hfail.
Qed.

Lemma X14_witness :
  configured (environ configured_world ∪ dotenv airtable_down) ∧
  init_failure airtable_down = Some (OtherException (py "invalid base id")) ∧
  (main airtable_down configured_world).1 = Raise SystemExit ∧
  calls (main airtable_down configured_world).2
  = [AirtableInit (Some (py "app1")) (Some (py "Alumni")) (Some (py "key1"))].
Proof.
  assert (configured (environ configured_world ∪ dotenv airtable_down)) as H
    by by_compute.
  split; [exact H|]. split; [reflexivity|].
  rewrite (X14_client_failure_ends_the_process airtable_down configured_world
             (OtherException (py "invalid base id")) H eq_refl eq_refl).
  split; by_compute.
Defined.

(** X15. After a run whose fetch and transform succeed, each of the four
    tables [stats_company], [stats_job_title], [stats_major] and
    [stats_location] of the configured dataset holds the aggregate computed
    in this run if its load job completed, and what it held before the run
    if the job failed; every other table of the warehouse is as it was. *)
Theorem X15_tables_after_a_run (sv : services) (g : globals) (w : world)
    (all_records : list airtable_record) (t_loc : stats) :
  get_all sv = Ok all_records →
  stats_location (fields <$> all_records) = Ok t_loc →
  (∀ table_id e, start_load sv table_id = Some e → is_Exception e = true) →
  (∀ table_id e, job_result sv table_id = Some e → is_Exception e = true) →
  ∃ w', run_etl sv g w = (Ok tt, w') ∧
    (∀ job, job ∈ load_jobs (fields <$> all_records) t_loc →
       warehouse w' !! table_id_of g job.2
       = match load_failure sv (table_id_of g job.2) with
         | None => Some job.1
         | Some _ => warehouse w !! table_id_of g job.2
         end) ∧
    (∀ table_id, table_id ∉ table_ids g (load_jobs (fields <$> all_records) t_loc) →
       warehouse w' !! table_id = warehouse w !! table_id).
Proof.
  intros Hget Hloc Hstart Hjob.
  destruct (run_etl_loads sv g w all_records t_loc Hget Hloc Hstart Hjob)
    as (w' & Hrun & _ & _ & Hwh).
  exists w'. split; [done|]. rewrite Hwh. split.
  - intros job Hin. apply loads_lookup_job; [apply load_jobs_NoDup|done].
  - intros table_id Hout. by apply loads_lookup_other.
Qed.

Lemma major_not_found_starts (R : records) (table_id : str) (e : exn) :
  start_load (major_not_found R) table_id = Some e → is_Exception e = true.
Proof. discriminate. Qed.

Lemma major_not_found_exceptions (R : records) (table_id : str) (e : exn) :
  job_result (major_not_found R) table_id = Some e → is_Exception e = true.
Proof.
  cbn [job_result major_not_found]. case_decide; [|discriminate]. by intros [= <-].
Qed.

Lemma X15_witness :
  let sv := major_not_found scenario in
  let R := fields <$> (as_fetched <$> scenario) in
  ∃ w', run_etl sv sample_globals configured_world = (Ok tt, w') ∧
    (∀ job, job ∈ load_jobs R scenario_location →
       warehouse w' !! table_id_of sample_globals job.2
       = match load_failure sv (table_id_of sample_globals job.2) with
         | None => Some job.1
         | Some _ => warehouse configured_world !! table_id_of sample_globals job.2
         end) ∧
    (∀ table_id, table_id ∉ table_ids sample_globals (load_jobs R scenario_location) →
       warehouse w' !! table_id = warehouse configured_world !! table_id).
Proof.
  apply (X15_tables_after_a_run (major_not_found scenario) sample_globals
           configured_world (as_fetched <$> scenario) scenario_location).
  - reflexivity.
  - vm_compute; reflexivity.
  - apply major_not_found_starts.
  - apply major_not_found_exceptions.
Defined.



(** X17. The script from its first line: with the five configuration
    values truthy, both clients constructed, a successful fetch and a
    location table, the process ends normally; its interactions are, in
    order, the construction of the Airtable client, that of the BigQuery
    client, one fetch, and the loads of the four tables under the project
    and dataset read from the environment. *)
Theorem X17_main_runs_the_pipeline (sv : services) (w : world)
    (all_records : list airtable_record) (t_loc : stats) :
  configured (environ w ∪ dotenv sv) →
  airtable_init sv = None → client_init sv = None →
  get_all sv = Ok all_records →
  stats_location (fields <$> all_records) = Ok t_loc →
  (∀ table_id e, start_load sv table_id = Some e → is_Exception e = true) →
  (∀ table_id e, job_result sv table_id = Some e → is_Exception e = true) →
  let env := environ w ∪ dotenv sv in
  let jobs := load_jobs (fields <$> all_records) t_loc in
  ∃ w', main sv w = (Ok tt, w') ∧
        environ w' = env ∧
        calls w' = calls w ++ [airtable_client env; BigQueryClient; AirtableGetAll]
                     ++ concat (load_calls sv (config_of env) <$> jobs) ∧
        warehouse w' = foldl (load_effect sv (config_of env)) (warehouse w) jobs.
Proof.
  intros Hconf Ha Hc Hget Hloc Hstart Hjob. cbv zeta.
  assert (init_failure sv = None) as Hinit by (unfold init_failure; by rewrite Ha).
  pose proof (setup_configured sv w Hconf) as Hsetup. rewrite Hinit in Hsetup.
  specialize (Hsetup I).
  destruct (run_etl_loads sv (config_of (environ w ∪ dotenv sv)) (after_init sv w)
              all_records t_loc Hget Hloc Hstart Hjob)
    as (w' & Hrun & Henv & Hcalls & Hwh).
  exists w'. unfold main. rewrite (bind_ok _ _ _ _ _ Hsetup).
  split; [done|]. rewrite Henv, Hcalls, Hwh.
  unfold after_init, init_calls. cbn [environ calls warehouse]. rewrite Ha.
  repeat split. by rewrite <-!app_assoc.
Qed.

Lemma X17_witness :
  let sv := major_not_found scenario in
  let env := environ configured_world ∪ dotenv sv in
  let jobs := load_jobs (fields <$> (as_fetched <$> scenario)) scenario_location in
  configured env ∧
  ∃ w', main sv configured_world = (Ok tt, w') ∧
        environ w' = env ∧
        calls w' = calls configured_world
                     ++ [airtable_client env; BigQueryClient; AirtableGetAll]
                     ++ concat (load_calls sv (config_of env) <$> jobs) ∧
        warehouse w' = foldl (load_effect sv (config_of env)) (warehouse configured_world)
                         jobs.
Proof.
  cbv zeta.
  assert (configured (environ configured_world ∪ dotenv (major_not_found scenario)))
    as H by by_compute.
  split; [exact H|].
  apply (X17_main_runs_the_pipeline (major_not_found scenario) configured_world
           (as_fetched <$> scenario) scenario_location H).
  - reflexivity.
  - reflexivity.
  - reflexivity.
  - vm_compute; reflexivity.
  - apply major_not_found_starts.
  - apply major_not_found_exceptions.
Defined.

End RunCoverage.
